(** * rich_header.h: locating and unmasking the PE rich header

    A shallow embedding of [rich_header_from_data], [rich_header_unmask],
    the [rich_header_products_len] macro and the two product-id
    classifiers, together with the properties of the locate/unmask
    algorithm.

    Pointers into the caller's buffer are byte offsets relative to
    [data]; a 32-bit word is a [Z] in [0, 2^32), stored little-endian
    (the layout of the PE format and of the machines the header is
    meant for); [size_t] is 64 bits wide. *)

From Stdlib Require Import ZArith Lia Strings.Byte String Ascii Bool.
From stdpp Require Import base option list.

#[local] Open Scope Z_scope.

(** ** Bytes and words *)

Definition byte_to_Z (b : byte) : Z := Z.of_N (Byte.to_N b).

Definition byte_of_Z (z : Z) : byte :=
  match Byte.of_N (Z.to_N (z mod 256)) with
  | Some b => b
  | None => x00
  end.

(** A buffer is the sequence of its bytes; [size] is [data_size]. *)
Abbreviation buffer := (list byte).

Definition size (data : buffer) : Z := Z.of_nat (length data).

(** One byte at offset [off]; [None] when the offset is outside the buffer. *)
Definition load_byte (data : buffer) (off : Z) : option byte :=
  if off <? 0 then None else data !! Z.to_nat off.

Definition load_u8 (data : buffer) (off : Z) : option Z :=
  byte_to_Z <$> load_byte data off.

(** The [n] bytes from offset [off] on. *)
Definition load_bytes (data : buffer) (off : Z) (n : nat) : option (list byte) :=
  mapM (fun k : nat => load_byte data (off + Z.of_nat k)) (seq 0 n).

(** [memcmp] over two arrays of the same length: zero when they agree,
    else the difference of the first two bytes that differ. *)
Fixpoint memcmp (s1 s2 : list byte) : Z :=
  match s1, s2 with
  | b1 :: r1, b2 :: r2 =>
      if byte_to_Z b1 =? byte_to_Z b2 then memcmp r1 r2
      else byte_to_Z b1 - byte_to_Z b2
  | _, _ => 0
  end.

(** [*(uint16_t* )(data + off)] *)
Definition load_u16 (data : buffer) (off : Z) : option Z :=
  b0 ← load_u8 data off;
  b1 ← load_u8 data (off + 1);
  Some (b0 + 256 * b1).

(** [*(uint32_t* )(data + off)] *)
Definition load_u32 (data : buffer) (off : Z) : option Z :=
  b0 ← load_u8 data off;
  b1 ← load_u8 data (off + 1);
  b2 ← load_u8 data (off + 2);
  b3 ← load_u8 data (off + 3);
  Some (b0 + 256 * b1 + 65536 * b2 + 16777216 * b3).

(** The four bytes of a word, lowest first. *)
Definition word_bytes (w : Z) : list byte :=
  [byte_of_Z w; byte_of_Z (w / 256); byte_of_Z (w / 65536); byte_of_Z (w / 16777216)].

(** The word a 4-byte array holds, as [*(uint32_t* )array] reads it. *)
Definition bytes_word (bs : list byte) : Z :=
  default 0 (load_u32 bs 0).

(** [*(uint32_t* )(mem + off) = w]; [None] when the word is not inside [mem]. *)
Definition store_u32 (mem : buffer) (off : Z) (w : Z) : option buffer :=
  if (0 <=? off) && (off + 4 <=? size mem) then
    let i := Z.to_nat off in
    Some (<[S (S (S i)) := byte_of_Z (w / 16777216)]>
          (<[S (S i) := byte_of_Z (w / 65536)]>
           (<[S i := byte_of_Z (w / 256)]>
            (<[i := byte_of_Z w]> mem))))
  else None.

(** ** The structures of the header *)

(** [IMAGE_MASKED_RICH_HEADER_PRODUCT] *)
Record IMAGE_MASKED_RICH_HEADER_PRODUCT := mkProduct {
  BuildNumber : Z;
  ProductID : Z;
  ObjectCount : Z
}.

(** [sizeof(uint32_t)] and [sizeof(IMAGE_MASKED_RICH_HEADER_PRODUCT)] *)
Definition sizeof_uint32 : Z := 4.
Definition sizeof_product : Z := 8.

(** Offset of [Key] in [IMAGE_RICH_HEADER], and of [Products] in
    [IMAGE_MASKED_RICH_HEADER]. *)
Definition offsetof_Key : Z := 4.
Definition offsetof_Products : Z := 16.

(** [size_t] arithmetic wraps modulo 2^64. *)
Definition size_t_wrap (z : Z) : Z := z mod 2 ^ 64.

(** The macro [rich_header_products_len]. *)
Definition rich_header_products_len (rich_header_size : Z) : Z :=
  size_t_wrap (rich_header_size - sizeof_uint32 * 4) / sizeof_product.

(** ** rich_header_from_data *)

Definition rich_header_signature : list byte := list_byte_of_string "Rich".
Definition rich_header_dans : list byte := list_byte_of_string "DanS".

(** The caller's [IMAGE_RICH_HEADER *] variable that [rhdr] points to, and
    the offsets of the 4-byte objects of the buffer read so far (latest
    first). *)
Record state := mkState {
  rhdr : Z;
  loads : list Z
}.

(** How a computation ends: with a value, by reading outside the buffer,
    or by exhausting the iteration budget of the model. *)
Inductive outcome (A : Type) : Type :=
| Value (a : A)
| OutOfBounds
| OutOfFuel.
Arguments Value {A} a.
Arguments OutOfBounds {A}.
Arguments OutOfFuel {A}.

Definition M (A : Type) : Type := state -> outcome A * state.

Definition Mret {A} (a : A) : M A := fun st => (Value a, st).

Definition Mbind {A B} (m : M A) (k : A -> M B) : M B :=
  fun st =>
    match m st with
    | (Value a, st') => k a st'
    | (OutOfBounds, st') => (OutOfBounds, st')
    | (OutOfFuel, st') => (OutOfFuel, st')
    end.

Notation "x <~ m ;; k" := (Mbind m (fun x => k))
  (at level 100, m at next level, right associativity).

Definition out_of_fuel {A} : M A := fun st => (OutOfFuel, st).

Definition get_rhdr : M Z := fun st => (Value (rhdr st), st).

Definition set_rhdr (p : Z) : M unit :=
  fun st => (Value tt, mkState p (loads st)).

Definition logged (off : Z) (st : state) : state :=
  mkState (rhdr st) (off :: loads st).

(** [*(uint32_t* )(data + off)], recorded *)
Definition load32 (data : buffer) (off : Z) : M Z :=
  fun st =>
    match load_u32 data off with
    | Some w => (Value w, logged off st)
    | None => (OutOfBounds, logged off st)
    end.

(** [memcmp(data + off, sig, sizeof(sig))], recorded *)
Definition memcmp_at (data : buffer) (off : Z) (sig : list byte) : M Z :=
  fun st =>
    match load_bytes data off (length sig) with
    | Some bs => (Value (memcmp bs sig), logged off st)
    | None => (OutOfBounds, logged off st)
    end.

(** The [while] loop looking for the signature, from [p]; its value is
    [found_header]. *)
Fixpoint forward_scan (fuel : nat) (data : buffer) (p : Z) : M bool :=
  match fuel with
  | O => out_of_fuel
  | S fuel' =>
      if p + 4 <? size data then
        c <~ memcmp_at data p rich_header_signature ;;
        if c =? 0 then
          _ <~ set_rhdr p ;; Mret true
        else forward_scan fuel' data (p + 1 * sizeof_uint32)
      else Mret false
  end.

(** The [for] loop looking for the masked "DanS", from [p] downwards; its
    value is what the function returns. *)
Fixpoint backward_scan (fuel : nat) (data : buffer) (p : Z) : M Z :=
  match fuel with
  | O => out_of_fuel
  | S fuel' =>
      if 0 <=? p then
        w <~ load32 data p ;;
        r <~ get_rhdr ;;
        key <~ load32 data (r + offsetof_Key) ;;
        if Z.lxor w key =? bytes_word rich_header_dans then Mret (r - p)
        else backward_scan fuel' data (p - 1 * sizeof_uint32)
      else Mret (-2)
  end.

Definition rich_header_from_data (data : buffer) : M Z :=
  found_header <~ forward_scan (S (length data)) data 64 ;;
  if negb found_header then Mret (-1)
  else
    r <~ get_rhdr ;;
    backward_scan (S (length data)) data r.

(** ** rich_header_unmask *)

(** The body of the [for] loop, run [n] times from index [i]. *)
Fixpoint unmask_loop (n : nat) (i : Z) (rh p masked_rhdr : Z) (mem : buffer)
  : option buffer :=
  match n with
  | O => Some mem
  | S n' =>
      w ← load_u32 mem (p + sizeof_uint32 * i);
      key ← load_u32 mem (rh + offsetof_Key);
      mem' ← store_u32 mem (masked_rhdr + sizeof_uint32 * i) (Z.lxor w key);
      unmask_loop n' (i + 1) rh p masked_rhdr mem'
  end.

(** [rh] is the offset of the [IMAGE_RICH_HEADER] and [masked_rhdr] that
    of the output array, both in [mem]; [None] when an access falls
    outside [mem]. *)
Definition rich_header_unmask (mem : buffer) (rh masked_rhdr_size masked_rhdr : Z)
  : option buffer :=
  let p := rh - masked_rhdr_size in
  unmask_loop (Z.to_nat (masked_rhdr_size / sizeof_uint32)) 0 rh p masked_rhdr mem.

(** [((IMAGE_MASKED_RICH_HEADER* )(mem + hdr))->Products[i]] *)
Definition load_product (mem : buffer) (hdr : Z) (i : Z)
  : option IMAGE_MASKED_RICH_HEADER_PRODUCT :=
  let a := hdr + offsetof_Products + sizeof_product * i in
  b ← load_u16 mem a;
  pid ← load_u16 mem (a + 2);
  c ← load_u32 mem (a + 4);
  Some (mkProduct b pid c).

(** The products of the header at [hdr], read one by one for
    [i < rich_header_products_len(rich_header_size)]. *)
Definition products (mem : buffer) (hdr : Z) (rich_header_size : Z)
  : option (list IMAGE_MASKED_RICH_HEADER_PRODUCT) :=
  mapM (fun i => load_product mem hdr (Z.of_nat i))
       (seq 0 (Z.to_nat (rich_header_products_len rich_header_size))).

(** ** The classifiers *)

(** [product_id] is a [uint16_t]: a [Z] in [0, 0xFFFF]. *)
Definition rich_header_productid_to_cstr (product_id : Z) : string :=
  match product_id with
  | 0x0000 => "Unknown"%string
  | 0x0001 => "Import0"%string
  | 0x0002 => "Linker510"%string
  | 0x0003 => "Cvtomf510"%string
  | 0x0004 => "Linker600"%string
  | 0x0005 => "Cvtomf600"%string
  | 0x0006 => "Cvtres500"%string
  | 0x0007 => "Utc11_Basic"%string
  | 0x0008 => "Utc11_C"%string
  | 0x0009 => "Utc12_Basic"%string
  | 0x000a => "Utc12_C"%string
  | 0x000b => "Utc12_CPP"%string
  | 0x000c => "AliasObj60"%string
  | 0x000d => "VisualBasic60"%string
  | 0x000e => "Masm613"%string
  | 0x000f => "Masm710"%string
  | 0x0010 => "Linker511"%string
  | 0x0011 => "Cvtomf511"%string
  | 0x0012 => "Masm614"%string
  | 0x0013 => "Linker512"%string
  | 0x0014 => "Cvtomf512"%string
  | 0x0015 => "Utc12_C_Std"%string
  | 0x0016 => "Utc12_CPP_Std"%string
  | 0x0017 => "Utc12_C_Book"%string
  | 0x0018 => "Utc12_CPP_Book"%string
  | 0x0019 => "Implib700"%string
  | 0x001a => "Cvtomf700"%string
  | 0x001b => "Utc13_Basic"%string
  | 0x001c => "Utc13_C"%string
  | 0x001d => "Utc13_CPP"%string
  | 0x001e => "Linker610"%string
  | 0x001f => "Cvtomf610"%string
  | 0x0020 => "Linker601"%string
  | 0x0021 => "Cvtomf601"%string
  | 0x0022 => "Utc12_1_Basic"%string
  | 0x0023 => "Utc12_1_C"%string
  | 0x0024 => "Utc12_1_CPP"%string
  | 0x0025 => "Linker620"%string
  | 0x0026 => "Cvtomf620"%string
  | 0x0027 => "AliasObj70"%string
  | 0x0028 => "Linker621"%string
  | 0x0029 => "Cvtomf621"%string
  | 0x002a => "Masm615"%string
  | 0x002b => "Utc13_LTCG_C"%string
  | 0x002c => "Utc13_LTCG_CPP"%string
  | 0x002d => "Masm620"%string
  | 0x002e => "ILAsm100"%string
  | 0x002f => "Utc12_2_Basic"%string
  | 0x0030 => "Utc12_2_C"%string
  | 0x0031 => "Utc12_2_CPP"%string
  | 0x0032 => "Utc12_2_C_Std"%string
  | 0x0033 => "Utc12_2_CPP_Std"%string
  | 0x0034 => "Utc12_2_C_Book"%string
  | 0x0035 => "Utc12_2_CPP_Book"%string
  | 0x0036 => "Implib622"%string
  | 0x0037 => "Cvtomf622"%string
  | 0x0038 => "Cvtres501"%string
  | 0x0039 => "Utc13_C_Std"%string
  | 0x003a => "Utc13_CPP_Std"%string
  | 0x003b => "Cvtpgd1300"%string
  | 0x003c => "Linker622"%string
  | 0x003d => "Linker700"%string
  | 0x003e => "Export622"%string
  | 0x003f => "Export700"%string
  | 0x0040 => "Masm700"%string
  | 0x0041 => "Utc13_POGO_I_C"%string
  | 0x0042 => "Utc13_POGO_I_CPP"%string
  | 0x0043 => "Utc13_POGO_O_C"%string
  | 0x0044 => "Utc13_POGO_O_CPP"%string
  | 0x0045 => "Cvtres700"%string
  | 0x0046 => "Cvtres710p"%string
  | 0x0047 => "Linker710p"%string
  | 0x0048 => "Cvtomf710p"%string
  | 0x0049 => "Export710p"%string
  | 0x004a => "Implib710p"%string
  | 0x004b => "Masm710p"%string
  | 0x004c => "Utc1310p_C"%string
  | 0x004d => "Utc1310p_CPP"%string
  | 0x004e => "Utc1310p_C_Std"%string
  | 0x004f => "Utc1310p_CPP_Std"%string
  | 0x0050 => "Utc1310p_LTCG_C"%string
  | 0x0051 => "Utc1310p_LTCG_CPP"%string
  | 0x0052 => "Utc1310p_POGO_I_C"%string
  | 0x0053 => "Utc1310p_POGO_I_CPP"%string
  | 0x0054 => "Utc1310p_POGO_O_C"%string
  | 0x0055 => "Utc1310p_POGO_O_CPP"%string
  | 0x0056 => "Linker624"%string
  | 0x0057 => "Cvtomf624"%string
  | 0x0058 => "Export624"%string
  | 0x0059 => "Implib624"%string
  | 0x005a => "Linker710"%string
  | 0x005b => "Cvtomf710"%string
  | 0x005c => "Export710"%string
  | 0x005d => "Implib710"%string
  | 0x005e => "Cvtres710"%string
  | 0x005f => "Utc1310_C"%string
  | 0x0060 => "Utc1310_CPP"%string
  | 0x0061 => "Utc1310_C_Std"%string
  | 0x0062 => "Utc1310_CPP_Std"%string
  | 0x0063 => "Utc1310_LTCG_C"%string
  | 0x0064 => "Utc1310_LTCG_CPP"%string
  | 0x0065 => "Utc1310_POGO_I_C"%string
  | 0x0066 => "Utc1310_POGO_I_CPP"%string
  | 0x0067 => "Utc1310_POGO_O_C"%string
  | 0x0068 => "Utc1310_POGO_O_CPP"%string
  | 0x0069 => "AliasObj710"%string
  | 0x006a => "AliasObj710p"%string
  | 0x006b => "Cvtpgd1310"%string
  | 0x006c => "Cvtpgd1310p"%string
  | 0x006d => "Utc1400_C"%string
  | 0x006e => "Utc1400_CPP"%string
  | 0x006f => "Utc1400_C_Std"%string
  | 0x0070 => "Utc1400_CPP_Std"%string
  | 0x0071 => "Utc1400_LTCG_C"%string
  | 0x0072 => "Utc1400_LTCG_CPP"%string
  | 0x0073 => "Utc1400_POGO_I_C"%string
  | 0x0074 => "Utc1400_POGO_I_CPP"%string
  | 0x0075 => "Utc1400_POGO_O_C"%string
  | 0x0076 => "Utc1400_POGO_O_CPP"%string
  | 0x0077 => "Cvtpgd1400"%string
  | 0x0078 => "Linker800"%string
  | 0x0079 => "Cvtomf800"%string
  | 0x007a => "Export800"%string
  | 0x007b => "Implib800"%string
  | 0x007c => "Cvtres800"%string
  | 0x007d => "Masm800"%string
  | 0x007e => "AliasObj800"%string
  | 0x007f => "PhoenixPrerelease"%string
  | 0x0080 => "Utc1400_CVTCIL_C"%string
  | 0x0081 => "Utc1400_CVTCIL_CPP"%string
  | 0x0082 => "Utc1400_LTCG_MSIL"%string
  | 0x0083 => "Utc1500_C"%string
  | 0x0084 => "Utc1500_CPP"%string
  | 0x0085 => "Utc1500_C_Std"%string
  | 0x0086 => "Utc1500_CPP_Std"%string
  | 0x0087 => "Utc1500_CVTCIL_C"%string
  | 0x0088 => "Utc1500_CVTCIL_CPP"%string
  | 0x0089 => "Utc1500_LTCG_C"%string
  | 0x008a => "Utc1500_LTCG_CPP"%string
  | 0x008b => "Utc1500_LTCG_MSIL"%string
  | 0x008c => "Utc1500_POGO_I_C"%string
  | 0x008d => "Utc1500_POGO_I_CPP"%string
  | 0x008e => "Utc1500_POGO_O_C"%string
  | 0x008f => "Utc1500_POGO_O_CPP"%string
  | 0x0090 => "Cvtpgd1500"%string
  | 0x0091 => "Linker900"%string
  | 0x0092 => "Export900"%string
  | 0x0093 => "Implib900"%string
  | 0x0094 => "Cvtres900"%string
  | 0x0095 => "Masm900"%string
  | 0x0096 => "AliasObj900"%string
  | 0x0097 => "Resource"%string
  | 0x0098 => "AliasObj1000"%string
  | 0x0099 => "Cvtpgd1600"%string
  | 0x009a => "Cvtres1000"%string
  | 0x009b => "Export1000"%string
  | 0x009c => "Implib1000"%string
  | 0x009d => "Linker1000"%string
  | 0x009e => "Masm1000"%string
  | 0x009f => "Phx1600_C"%string
  | 0x00a0 => "Phx1600_CPP"%string
  | 0x00a1 => "Phx1600_CVTCIL_C"%string
  | 0x00a2 => "Phx1600_CVTCIL_CPP"%string
  | 0x00a3 => "Phx1600_LTCG_C"%string
  | 0x00a4 => "Phx1600_LTCG_CPP"%string
  | 0x00a5 => "Phx1600_LTCG_MSIL"%string
  | 0x00a6 => "Phx1600_POGO_I_C"%string
  | 0x00a7 => "Phx1600_POGO_I_CPP"%string
  | 0x00a8 => "Phx1600_POGO_O_C"%string
  | 0x00a9 => "Phx1600_POGO_O_CPP"%string
  | 0x00aa => "Utc1600_C"%string
  | 0x00ab => "Utc1600_CPP"%string
  | 0x00ac => "Utc1600_CVTCIL_C"%string
  | 0x00ad => "Utc1600_CVTCIL_CPP"%string
  | 0x00ae => "Utc1600_LTCG_C"%string
  | 0x00af => "Utc1600_LTCG_CPP"%string
  | 0x00b0 => "Utc1600_LTCG_MSIL"%string
  | 0x00b1 => "Utc1600_POGO_I_C"%string
  | 0x00b2 => "Utc1600_POGO_I_CPP"%string
  | 0x00b3 => "Utc1600_POGO_O_C"%string
  | 0x00b4 => "Utc1600_POGO_O_CPP"%string
  | 0x00b5 => "AliasObj1010"%string
  | 0x00b6 => "Cvtpgd1610"%string
  | 0x00b7 => "Cvtres1010"%string
  | 0x00b8 => "Export1010"%string
  | 0x00b9 => "Implib1010"%string
  | 0x00ba => "Linker1010"%string
  | 0x00bb => "Masm1010"%string
  | 0x00bc => "Utc1610_C"%string
  | 0x00bd => "Utc1610_CPP"%string
  | 0x00be => "Utc1610_CVTCIL_C"%string
  | 0x00bf => "Utc1610_CVTCIL_CPP"%string
  | 0x00c0 => "Utc1610_LTCG_C"%string
  | 0x00c1 => "Utc1610_LTCG_CPP"%string
  | 0x00c2 => "Utc1610_LTCG_MSIL"%string
  | 0x00c3 => "Utc1610_POGO_I_C"%string
  | 0x00c4 => "Utc1610_POGO_I_CPP"%string
  | 0x00c5 => "Utc1610_POGO_O_C"%string
  | 0x00c6 => "Utc1610_POGO_O_CPP"%string
  | 0x00c7 => "AliasObj1100"%string
  | 0x00c8 => "Cvtpgd1700"%string
  | 0x00c9 => "Cvtres1100"%string
  | 0x00ca => "Export1100"%string
  | 0x00cb => "Implib1100"%string
  | 0x00cc => "Linker1100"%string
  | 0x00cd => "Masm1100"%string
  | 0x00ce => "Utc1700_C"%string
  | 0x00cf => "Utc1700_CPP"%string
  | 0x00d0 => "Utc1700_CVTCIL_C"%string
  | 0x00d1 => "Utc1700_CVTCIL_CPP"%string
  | 0x00d2 => "Utc1700_LTCG_C"%string
  | 0x00d3 => "Utc1700_LTCG_CPP"%string
  | 0x00d4 => "Utc1700_LTCG_MSIL"%string
  | 0x00d5 => "Utc1700_POGO_I_C"%string
  | 0x00d6 => "Utc1700_POGO_I_CPP"%string
  | 0x00d7 => "Utc1700_POGO_O_C"%string
  | 0x00d8 => "Utc1700_POGO_O_CPP"%string
  | 0x00d9 => "AliasObj1200"%string
  | 0x00da => "Cvtpgd1800"%string
  | 0x00db => "Cvtres1200"%string
  | 0x00dc => "Export1200"%string
  | 0x00dd => "Implib1200"%string
  | 0x00de => "Linker1200"%string
  | 0x00df => "Masm1200"%string
  | 0x00e0 => "Utc1800_C"%string
  | 0x00e1 => "Utc1800_CPP"%string
  | 0x00e2 => "Utc1800_CVTCIL_C"%string
  | 0x00e3 => "Utc1800_CVTCIL_CPP"%string
  | 0x00e4 => "Utc1800_LTCG_C"%string
  | 0x00e5 => "Utc1800_LTCG_CPP"%string
  | 0x00e6 => "Utc1800_LTCG_MSIL"%string
  | 0x00e7 => "Utc1800_POGO_I_C"%string
  | 0x00e8 => "Utc1800_POGO_I_CPP"%string
  | 0x00e9 => "Utc1800_POGO_O_C"%string
  | 0x00ea => "Utc1800_POGO_O_CPP"%string
  | 0x00eb => "AliasObj1210"%string
  | 0x00ec => "Cvtpgd1810"%string
  | 0x00ed => "Cvtres1210"%string
  | 0x00ee => "Export1210"%string
  | 0x00ef => "Implib1210"%string
  | 0x00f0 => "Linker1210"%string
  | 0x00f1 => "Masm1210"%string
  | 0x00f2 => "Utc1810_C"%string
  | 0x00f3 => "Utc1810_CPP"%string
  | 0x00f4 => "Utc1810_CVTCIL_C"%string
  | 0x00f5 => "Utc1810_CVTCIL_CPP"%string
  | 0x00f6 => "Utc1810_LTCG_C"%string
  | 0x00f7 => "Utc1810_LTCG_CPP"%string
  | 0x00f8 => "Utc1810_LTCG_MSIL"%string
  | 0x00f9 => "Utc1810_POGO_I_C"%string
  | 0x00fa => "Utc1810_POGO_I_CPP"%string
  | 0x00fb => "Utc1810_POGO_O_C"%string
  | 0x00fc => "Utc1810_POGO_O_CPP"%string
  | 0x00fd => "AliasObj1400"%string
  | 0x00fe => "Cvtpgd1900"%string
  | 0x00ff => "Cvtres1400"%string
  | 0x0100 => "Export1400"%string
  | 0x0101 => "Implib1400"%string
  | 0x0102 => "Linker1400"%string
  | 0x0103 => "Masm1400"%string
  | 0x0104 => "Utc1900_C"%string
  | 0x0105 => "Utc1900_CPP"%string
  | 0x0106 => "Utc1900_CVTCIL_C"%string
  | 0x0107 => "Utc1900_CVTCIL_CPP"%string
  | 0x0108 => "Utc1900_LTCG_C"%string
  | 0x0109 => "Utc1900_LTCG_CPP"%string
  | 0x010a => "Utc1900_LTCG_MSIL"%string
  | 0x010b => "Utc1900_POGO_I_C"%string
  | 0x010c => "Utc1900_POGO_I_CPP"%string
  | 0x010d => "Utc1900_POGO_O_C"%string
  | 0x010e => "Utc1900_POGO_O_CPP"%string
  | _ => EmptyString
  end.

Definition rich_header_productid_to_vsver_cstr (product_id : Z) : string :=
  if (0x0106 <=? product_id) && (product_id <=? 0x010a) then
    "Visual Studio 2017 14.01+"%string
  else if (0x00fd <=? product_id) && (product_id <=? 0x0106) then
    "Visual Studio 2015 14.00"%string
  else if (0x00eb <=? product_id) && (product_id <=? 0x00fd) then
    "Visual Studio 2013 12.10"%string
  else if (0x00d9 <=? product_id) && (product_id <=? 0x00eb) then
    "Visual Studio 2013 12.00"%string
  else if (0x00c7 <=? product_id) && (product_id <=? 0x00d9) then
    "Visual Studio 2012 11.00"%string
  else if (0x00b5 <=? product_id) && (product_id <=? 0x00c7) then
    "Visual Studio 2010 10.10"%string
  else if (0x0098 <=? product_id) && (product_id <=? 0x00b5) then
    "Visual Studio 2010 10.00"%string
  else if (0x0083 <=? product_id) && (product_id <=? 0x0098) then
    "Visual Studio 2008 09.00"%string
  else if (0x006d <=? product_id) && (product_id <=? 0x0083) then
    "Visual Studio 2005 08.00"%string
  else if (0x005a <=? product_id) && (product_id <=? 0x006d) then
    "Visual Studio 2003 07.10"%string
  else if (0x0019 <=? product_id) && (product_id <=? 0x0045) then
    "Visual Studio 2002 07.00"%string
  else if ((0xA <=? product_id) && (product_id <=? 0xD)) ||
          ((0x15 <=? product_id) && (product_id <=? 0x16)) then
    "Visual Studio 6.0 06.00"%string
  else if (product_id =? 0x2) || (product_id =? 0x6) || (product_id =? 0xC) || (product_id =? 0xE) then
    "Visual Studio 97 05.00"%string
  else if product_id =? 1 then
    "Visual Studio"%string
  else EmptyString.

(** ** What the scans look for *)

Definition Rich : Z := bytes_word rich_header_signature.
Definition DanS : Z := bytes_word rich_header_dans.

(** The "Rich" signature lies at offset [q]. *)
Definition is_rich (data : buffer) (q : Z) : Prop :=
  load_u32 data q = Some Rich.

(** The offsets the forward scan can test: from 64 on, in steps of one
    [uint32_t], as long as more than 4 bytes remain. *)
Definition scanned (data : buffer) (q : Z) : Prop :=
  64 <= q /\ (q - 64) mod 4 = 0 /\ q + 4 < size data.

Definition first_rich (data : buffer) (m : Z) : Prop :=
  scanned data m /\ is_rich data m /\
  forall q, scanned data q -> q < m -> ~ is_rich data q.

Definition no_rich (data : buffer) : Prop :=
  forall q, scanned data q -> ~ is_rich data q.

(** The word at offset [q], unmasked with [key], is "DanS". *)
Definition is_dans (data : buffer) (key q : Z) : Prop :=
  exists w, load_u32 data q = Some w /\ Z.lxor w key = DanS.

(** The offsets the backward scan visits from [m]: [m], [m - 4], ... down
    to offset 0 at most. *)
Definition walked (m q : Z) : Prop :=
  0 <= q <= m /\ (m - q) mod 4 = 0.

Definition header_start (data : buffer) (key m s : Z) : Prop :=
  walked m s /\ is_dans data key s /\
  forall q, walked m q -> s < q -> ~ is_dans data key q.

Definition no_dans (data : buffer) (key m : Z) : Prop :=
  forall q, walked m q -> ~ is_dans data key q.

(** Running a computation: its outcome and its final state. *)
Definition result {A} (m : M A) (st : state) : outcome A := fst (m st).
Definition final {A} (m : M A) (st : state) : state := snd (m st).

(** Offsets [p], [p + 4], ... below [m]. *)
Definition stride (p m q : Z) : Prop :=
  p <= q < m /\ (q - p) mod 4 = 0.

(** ** The four ways a call of rich_header_from_data ends

    [located data r0 o r] relates the buffer and the caller's pointer
    [r0] before the call to the outcome [o] and the pointer [r] after
    it. *)
Inductive located (data : buffer) (r0 : Z) : outcome Z -> Z -> Prop :=
| NotFound :
    no_rich data ->
    located data r0 (Value (-1)) r0
| KeyOutside (m : Z) :
    first_rich data m ->
    load_u32 data (m + 4) = None ->
    located data r0 OutOfBounds m
| LengthUnrecoverable (m key : Z) :
    first_rich data m ->
    load_u32 data (m + 4) = Some key ->
    no_dans data key m ->
    located data r0 (Value (-2)) m
| Found (m key s : Z) :
    first_rich data m ->
    load_u32 data (m + 4) = Some key ->
    header_start data key m s ->
    located data r0 (Value (m - s)) m.

(** ** Concrete buffers *)

Definition zeros (n : nat) : buffer := repeat x00 n.

Definition key1 : Z := 0x12345678.

(** The tail "Rich" + key at offset 64, nothing that unmasks to "DanS"
    before it. *)
Definition tail_only : buffer :=
  zeros 64 ++ rich_header_signature ++ word_bytes key1.

(** The masked "DanS" in the word just before the tail. *)
Definition dans_next_to_rich : buffer :=
  zeros 60 ++ word_bytes (Z.lxor DanS key1) ++ rich_header_signature ++ word_bytes key1.

(** The tail one byte off the scanned offsets, its key ending the buffer. *)
Definition tail_at_65 : buffer :=
  zeros 65 ++ rich_header_signature ++ word_bytes key1.

(** The tail at offset 64 with the last byte of the key cut off. *)
Definition key_cut_short : buffer :=
  zeros 64 ++ rich_header_signature ++ [x78; x56; x34].

Definition st0 : state := mkState 0 [].

(** The invariant the specification gives for a header length. *)
Definition length_invariant (v : Z) : Prop :=
  16 <= v /\ (v - 16) mod 8 = 0.

(** Two buffers that agree on every byte from offset 64 on. *)
Definition same_from_64 (b1 b2 : buffer) : Prop :=
  length b1 = length b2 /\
  forall i : nat, (64 <= i)%nat -> b1 !! i = b2 !! i.

(** A whole header with no product: masked "DanS", three masked zero
    words, then the tail at offset 64. *)
Definition minimal_header : buffer :=
  zeros 48 ++ word_bytes (Z.lxor DanS key1) ++ word_bytes key1 ++ word_bytes key1
    ++ word_bytes key1 ++ rich_header_signature ++ word_bytes key1.

(** "Rich" at offset 66, with room to spare after its key. *)
Definition tail_at_66 : buffer :=
  zeros 66 ++ rich_header_signature ++ word_bytes key1 ++ zeros 6.

(** ** Product entries *)

(** The entry two unmasked words hold: build number in the low half of
    the first word, product id in its high half, object count in the
    second word. *)
Definition unpack (w0 w1 : Z) : IMAGE_MASKED_RICH_HEADER_PRODUCT :=
  mkProduct (w0 mod 65536) (w0 / 65536) w1.

(** Word [i] of the array at [p], before the call. *)
Definition word_at (mem : buffer) (p i : Z) : Z :=
  default 0 (load_u32 mem (p + 4 * i)).

(** ** Assembling a header *)

(** The on-disk word holding build number and product id. *)
Definition product_word (e : IMAGE_MASKED_RICH_HEADER_PRODUCT) : Z :=
  BuildNumber e + 65536 * ProductID e.

(** A product entry whose fields fit their C types. *)
Definition product_ok (e : IMAGE_MASKED_RICH_HEADER_PRODUCT) : Prop :=
  0 <= BuildNumber e < 2 ^ 16 /\ 0 <= ProductID e < 2 ^ 16 /\
  0 <= ObjectCount e < 2 ^ 32.

(** The plain words of a header: "DanS", three zero words, two words per
    product. *)
Definition plain_words (prods : list IMAGE_MASKED_RICH_HEADER_PRODUCT) : list Z :=
  DanS :: 0 :: 0 :: 0 :: flat_map (fun e => [product_word e; ObjectCount e]) prods.

(** The same words masked with [key]. *)
Definition header_words (key : Z) (prods : list IMAGE_MASKED_RICH_HEADER_PRODUCT)
  : list Z :=
  (fun w => Z.lxor w key) <$> plain_words prods.

(** [padding][masked header]["Rich"][key] *)
Definition assemble (pad : buffer) (key : Z)
  (prods : list IMAGE_MASKED_RICH_HEADER_PRODUCT) : buffer :=
  pad ++ flat_map word_bytes (header_words key prods)
      ++ rich_header_signature ++ word_bytes key.

(** The number of words of the masked header, and the offset of "Rich"
    in the assembled buffer. *)
Definition header_len (key : Z) (prods : list IMAGE_MASKED_RICH_HEADER_PRODUCT) : Z :=
  Z.of_nat (length (header_words key prods)).

Definition tail_offset (pad : buffer) (key : Z)
  (prods : list IMAGE_MASKED_RICH_HEADER_PRODUCT) : Z :=
  size pad + 4 * header_len key prods.

(** Locate, unmask in place, read the products: what the caller gets
    from a buffer, as in example.c. *)
Definition round_trip (data : buffer) (st : state) (key : Z)
  (prods : list IMAGE_MASKED_RICH_HEADER_PRODUCT) : Prop :=
  exists n mem',
    result (rich_header_from_data data) st = Value n /\
    0 < n /\
    let rh := rhdr (final (rich_header_from_data data) st) in
    load_u32 data (rh + offsetof_Key) = Some key /\
    rich_header_unmask data rh n (rh - n) = Some mem' /\
    products mem' (rh - n) n = Some prods.

(** ** The scenario of the specification *)

(** The scenario of the specification: one product, key 0x12345678. *)
Definition utc1600_c : IMAGE_MASKED_RICH_HEADER_PRODUCT :=
  mkProduct 0x1234 0x00aa 7.

(** A product whose object count reads "DanS". *)
Definition dans_count : IMAGE_MASKED_RICH_HEADER_PRODUCT :=
  mkProduct 0x1234 0x00aa DanS.

(** Padding that holds "Rich" at offset 64. *)
Definition pad_with_rich : buffer :=
  zeros 64 ++ rich_header_signature ++ zeros 4.

(** The scenario of the specification, assembled after 64 bytes of
    padding. *)
Definition scenario : buffer := assemble (zeros 64) key1 [utc1600_c].

(** ** Known product ids *)

(** The ids with a [case] of their own. *)
Definition has_name (product_id : Z) : Prop :=
  0 <= product_id <= 0x010e.

(** The ids inside one of the release ranges. *)
Definition has_release (product_id : Z) : Prop :=
  product_id = 1 \/ product_id = 2 \/ product_id = 6 \/
  0xA <= product_id <= 0xE \/ 0x15 <= product_id <= 0x16 \/
  0x19 <= product_id <= 0x45 \/ 0x5a <= product_id <= 0x10a.

Definition has_name_b (product_id : Z) : bool :=
  (0 <=? product_id) && (product_id <=? 0x010e).

Definition has_release_b (product_id : Z) : bool :=
  (product_id =? 1) || (product_id =? 2) || (product_id =? 6) ||
  (0xA <=? product_id) && (product_id <=? 0xE) ||
  (0x15 <=? product_id) && (product_id <=? 0x16) ||
  (0x19 <=? product_id) && (product_id <=? 0x45) ||
  (0x5a <=? product_id) && (product_id <=? 0x10a).

(** Both answers are the empty string exactly when the id is unknown. *)
Definition classified_b (product_id : Z) : bool :=
  Bool.eqb (String.eqb (rich_header_productid_to_cstr product_id) EmptyString)
           (negb (has_name_b product_id)) &&
  Bool.eqb (String.eqb (rich_header_productid_to_vsver_cstr product_id) EmptyString)
           (negb (has_release_b product_id)).

(** [f] holds at [i], [i + 1], ..., [i + n - 1]. *)
Fixpoint holds_from (f : Z -> bool) (n : nat) (i : Z) : bool :=
  match n with
  | O => true
  | S n' => f i && holds_from f n' (i + 1)
  end.

(** ** Further buffers *)

(** A tail whose key is "Rich" XOR "DanS": the word "Rich" itself unmasks
    to "DanS". *)
Definition self_masked_tail : buffer :=
  zeros 64 ++ rich_header_signature ++ word_bytes (Z.lxor Rich DanS).

(** ** Checks over all product ids *)

(** Two ids with the same name are the same id. *)
Definition names_differ_b (a b : Z) : bool :=
  implb (String.eqb (rich_header_productid_to_cstr a)
                    (rich_header_productid_to_cstr b))
        (a =? b).

Definition names_distinct_b (a : Z) : bool :=
  holds_from (names_differ_b a) (Z.to_nat 0x010f) 0.

Definition in_range (lo hi product_id : Z) : bool :=
  (lo <=? product_id) && (product_id <=? hi).

(** The release string is [s] exactly when the id is one of those
    [known] marks. *)
Definition release_when (release s : string) (known : bool) : bool :=
  Bool.eqb (String.eqb release s) known.

Definition release_ranges_b (product_id : Z) : bool :=
  let release := rich_header_productid_to_vsver_cstr product_id in
  release_when release "Visual Studio 2017 14.01+" (in_range 0x0106 0x010a product_id) &&
  release_when release "Visual Studio 2015 14.00" (in_range 0x00fd 0x0105 product_id) &&
  release_when release "Visual Studio 2013 12.10" (in_range 0x00eb 0x00fc product_id) &&
  release_when release "Visual Studio 2013 12.00" (in_range 0x00d9 0x00ea product_id) &&
  release_when release "Visual Studio 2012 11.00" (in_range 0x00c7 0x00d8 product_id) &&
  release_when release "Visual Studio 2010 10.10" (in_range 0x00b5 0x00c6 product_id) &&
  release_when release "Visual Studio 2010 10.00" (in_range 0x0098 0x00b4 product_id) &&
  release_when release "Visual Studio 2008 09.00" (in_range 0x0083 0x0097 product_id) &&
  release_when release "Visual Studio 2005 08.00" (in_range 0x006d 0x0082 product_id) &&
  release_when release "Visual Studio 2003 07.10" (in_range 0x005a 0x006c product_id) &&
  release_when release "Visual Studio 2002 07.00" (in_range 0x0019 0x0045 product_id) &&
  release_when release "Visual Studio 6.0 06.00"
    (in_range 0xA 0xD product_id || in_range 0x15 0x16 product_id) &&
  release_when release "Visual Studio 97 05.00"
    ((product_id =? 0x2) || (product_id =? 0x6) || (product_id =? 0xE)) &&
  release_when release "Visual Studio" (product_id =? 1).

(** ** example.c: main, from the file content on *)

(** The arguments of one [printf] of the loop, in the order they are
    passed: [i], [product.BuildNumber], [product.ProductID],
    [product.ObjectCount], the release and the name of the product id. *)
Record row := mkRow {
  row_i : Z;
  row_BuildNumber : Z;
  row_ProductID : Z;
  row_ObjectCount : Z;
  row_vsver : string;
  row_cstr : string
}.

Definition print_row (i : nat) (product : IMAGE_MASKED_RICH_HEADER_PRODUCT) : row :=
  mkRow (Z.of_nat i) (BuildNumber product) (ProductID product) (ObjectCount product)
        (rich_header_productid_to_vsver_cstr (ProductID product))
        (rich_header_productid_to_cstr (ProductID product)).

(** How [main] ends, with the rows printed until then: an [assert] fails
    (no row is printed before the asserts), a read falls outside the
    allocated content, the loop ends and [main] returns [EXIT_SUCCESS], or
    the iteration budget of the model is exhausted. *)
Inductive report : Type :=
| AssertFailed
| ReadOutside (rows : list row)
| Printed (rows : list row)
| Unfinished (rows : list row).

(** The [for] loop of [main] from index [i], with [len] the value of
    [rich_header_products_len(rich_header_size)] and [hdr] the offset of
    [masked_rich_header]: each turn reads [Products[i]] and prints its
    row. *)
Fixpoint print_loop (fuel : nat) (file : buffer) (hdr len : Z) (i : nat)
  (printed : list row) : report :=
  match fuel with
  | O => Unfinished printed
  | S fuel' =>
      if Z.of_nat i <? len then
        match load_product file hdr (Z.of_nat i) with
        | None => ReadOutside printed
        | Some product =>
            print_loop fuel' file hdr len (S i) (printed ++ [print_row i product])
        end
      else Printed printed
  end.

(** [main] once [fread] has stored the [n = file_size] bytes of the file
    in [content]; [rich_header] is the value the uninitialised local
    variable happens to hold. Opening and reading the file are not part
    of the model. *)
Definition main_after_read (content : buffer) (rich_header : Z) : report :=
  if negb (size content >? 0) then AssertFailed
  else
    match load_u16 content 0 with
    | None => ReadOutside []
    | Some magic =>
        if negb (magic =? 0x5a4d) then AssertFailed
        else
          match rich_header_from_data content (mkState rich_header []) with
          | (Value rich_header_size, st) =>
              if negb (rich_header_size >? 0) then AssertFailed
              else
                let masked_rich_header := rhdr st - rich_header_size in
                match rich_header_unmask content (rhdr st) rich_header_size
                        masked_rich_header with
                | None => ReadOutside []
                | Some file =>
                    print_loop (S (length file)) file masked_rich_header
                      (rich_header_products_len rich_header_size) 0 []
                end
          | (OutOfBounds, _) => ReadOutside []
          | (OutOfFuel, _) => Unfinished []
          end
    end.

(** The rows of the products [ps] read from index [i] on. *)
Definition rows_of (i : nat) (ps : list IMAGE_MASKED_RICH_HEADER_PRODUCT)
  : list row :=
  imap (fun j => print_row (i + j)) ps.

(** [ps] are the products at the indices [i], [i + 1], ... of the header
    at [hdr]. *)
Definition read_all (file : buffer) (hdr : Z) (i : nat)
  (ps : list IMAGE_MASKED_RICH_HEADER_PRODUCT) : Prop :=
  forall (j : nat) (p : IMAGE_MASKED_RICH_HEADER_PRODUCT),
    ps !! j = Some p -> load_product file hdr (Z.of_nat (i + j)) = Some p.

(** Padding of 64 bytes that starts with the "MZ" magic. *)
Definition mz_pad : buffer := list_byte_of_string "MZ" ++ zeros 62.

(** A file with the "MZ" magic and the masked "DanS" in the word just
    before "Rich". *)
Definition mz_short_header : buffer :=
  list_byte_of_string "MZ" ++ zeros 58 ++ word_bytes (Z.lxor DanS key1)
    ++ rich_header_signature ++ word_bytes key1.

(** [mz_short_header] followed by 64 more bytes. *)
Definition mz_short_header_padded : buffer := mz_short_header ++ zeros 64.

(** ** Bytes, loads and stores *)

Lemma byte_to_Z_range (b : byte) : 0 <= byte_to_Z b < 256.
Proof.
  unfold byte_to_Z. pose proof (Byte.to_N_bounded b) as H.
  split; [apply N2Z.is_nonneg | lia].
Qed.

Lemma byte_to_of_Z (z : Z) : byte_to_Z (byte_of_Z z) = z mod 256.
Proof.
  unfold byte_to_Z, byte_of_Z.
  assert (Hr : 0 <= z mod 256 < 256) by (apply Z.mod_pos_bound; lia).
  destruct (Byte.of_N (Z.to_N (z mod 256))) as [b|] eqn:E.
  - apply Byte.to_of_N in E. rewrite E. lia.
  - apply Byte.of_N_None_iff in E. lia.
Qed.

Lemma load_u8_Some (data : buffer) (off v : Z) :
  load_u8 data off = Some v -> 0 <= off < size data /\ 0 <= v < 256.
Proof.
  unfold load_u8, load_byte, size. destruct (Z.ltb_spec off 0) as [|Hoff]; [discriminate|].
  destruct (data !! Z.to_nat off) as [b|] eqn:E; simpl; [|discriminate].
  intros [= <-]. apply lookup_lt_Some in E.
  split; [lia | apply byte_to_Z_range].
Qed.

Lemma load_u8_in_bounds (data : buffer) (off : Z) :
  0 <= off < size data -> exists v, load_u8 data off = Some v.
Proof.
  unfold load_u8, load_byte, size. intros H.
  destruct (Z.ltb_spec off 0); [lia|].
  destruct (lookup_lt_is_Some_2 data (Z.to_nat off)) as [b ->]; [lia|].
  simpl. eauto.
Qed.

Lemma load_u8_out (data : buffer) (off : Z) :
  size data <= off -> load_u8 data off = None.
Proof.
  unfold load_u8, load_byte, size. intros H.
  destruct (Z.ltb_spec off 0); [done|].
  rewrite (lookup_ge_None_2 data (Z.to_nat off)); [done | lia].
Qed.

Lemma load_u32_Some (data : buffer) (off w : Z) :
  load_u32 data off = Some w ->
  0 <= off /\ off + 4 <= size data /\ 0 <= w < 2 ^ 32.
Proof.
  unfold load_u32. intros H.
  destruct (load_u8 data off) as [b0|] eqn:E0; simpl in H; [|discriminate].
  destruct (load_u8 data (off + 1)) as [b1|] eqn:E1; simpl in H; [|discriminate].
  destruct (load_u8 data (off + 2)) as [b2|] eqn:E2; simpl in H; [|discriminate].
  destruct (load_u8 data (off + 3)) as [b3|] eqn:E3; simpl in H; [|discriminate].
  injection H as <-.
  apply load_u8_Some in E0, E1, E2, E3. lia.
Qed.

Lemma load_u32_in_bounds (data : buffer) (off : Z) :
  0 <= off -> off + 4 <= size data -> exists w, load_u32 data off = Some w.
Proof.
  intros H0 H4. unfold load_u32.
  destruct (load_u8_in_bounds data off) as [b0 ->]; [lia|].
  destruct (load_u8_in_bounds data (off + 1)) as [b1 ->]; [lia|].
  destruct (load_u8_in_bounds data (off + 2)) as [b2 ->]; [lia|].
  destruct (load_u8_in_bounds data (off + 3)) as [b3 ->]; [lia|].
  simpl. eauto.
Qed.

Lemma load_u32_out (data : buffer) (off : Z) :
  size data < off + 4 -> load_u32 data off = None.
Proof.
  intros H. destruct (load_u32 data off) as [w|] eqn:E; [|done].
  apply load_u32_Some in E. lia.
Qed.

Lemma Rich_value : Rich = 0x68636952.
Proof. reflexivity. Qed.

Lemma DanS_value : DanS = 0x536e6144.
Proof. reflexivity. Qed.

(** ** The forward scan *)

Lemma byte_to_Z_inj (b1 b2 : byte) : byte_to_Z b1 = byte_to_Z b2 -> b1 = b2.
Proof.
  unfold byte_to_Z. intros H. apply N2Z.inj in H.
  pose proof (Byte.of_to_N b1) as H1. rewrite H, Byte.of_to_N in H1.
  congruence.
Qed.

Lemma memcmp_0_iff (s1 s2 : list byte) :
  length s1 = length s2 -> (memcmp s1 s2 = 0 <-> s1 = s2).
Proof.
  revert s2. induction s1 as [|b1 r1 IH]; intros [|b2 r2] Hlen;
    try discriminate; [tauto|].
  simpl. destruct (Z.eqb_spec (byte_to_Z b1) (byte_to_Z b2)) as [E|N].
  - apply byte_to_Z_inj in E. subst b2. rewrite IH by (simpl in Hlen; lia).
    split; [intros ->; reflexivity | intros [= ->]; reflexivity].
  - split; [lia | intros [= -> _]; contradiction].
Qed.

(** The four bytes the signature is compared with are those of the word
    at that offset. *)
Lemma load_bytes_4 (data : buffer) (off : Z) :
  load_bytes data off 4 =
  b0 ← load_byte data off; b1 ← load_byte data (off + 1);
  b2 ← load_byte data (off + 2); b3 ← load_byte data (off + 3);
  Some [b0; b1; b2; b3].
Proof.
  unfold load_bytes. simpl.
  change (Z.of_nat 1) with 1. change (Z.of_nat 2) with 2.
  change (Z.of_nat 3) with 3. rewrite Z.add_0_r.
  destruct (load_byte data off); [|reflexivity].
  destruct (load_byte data (off + 1)); [|reflexivity].
  destruct (load_byte data (off + 2)); [|reflexivity].
  destruct (load_byte data (off + 3)); reflexivity.
Qed.

Lemma load_u32_bytes (data : buffer) (off : Z) :
  load_u32 data off = (fun bs => bytes_word bs) <$> load_bytes data off 4.
Proof.
  rewrite load_bytes_4. unfold load_u32, load_u8.
  destruct (load_byte data off); [|reflexivity].
  destruct (load_byte data (off + 1)); [|reflexivity].
  destruct (load_byte data (off + 2)); [|reflexivity].
  destruct (load_byte data (off + 3)); reflexivity.
Qed.

(** Four bytes equal the signature exactly when the word they form is
    the word the signature forms. *)
Lemma memcmp_rich (bs : list byte) :
  length bs = 4%nat ->
  (memcmp bs rich_header_signature =? 0) = (bytes_word bs =? Rich).
Proof.
  intros Hlen.
  destruct (Z.eqb_spec (memcmp bs rich_header_signature) 0) as [E|N];
    destruct (Z.eqb_spec (bytes_word bs) Rich) as [E'|N']; try reflexivity; exfalso.
  - apply memcmp_0_iff in E; [|assumption]. subst bs. apply N'. reflexivity.
  - apply N. apply memcmp_0_iff; [assumption|].
    destruct bs as [|b0 [|b1 [|b2 [|b3 [|]]]]]; try discriminate.
    unfold bytes_word, load_u32, load_u8, load_byte in E'. simpl in E'.
    rewrite Rich_value in E'.
    pose proof (byte_to_Z_range b0). pose proof (byte_to_Z_range b1).
    pose proof (byte_to_Z_range b2). pose proof (byte_to_Z_range b3).
    assert (E0 : byte_to_Z b0 = byte_to_Z "R"%byte)
      by (change (byte_to_Z "R"%byte) with 82; lia).
    assert (E1 : byte_to_Z b1 = byte_to_Z "i"%byte)
      by (change (byte_to_Z "i"%byte) with 105; lia).
    assert (E2 : byte_to_Z b2 = byte_to_Z "c"%byte)
      by (change (byte_to_Z "c"%byte) with 99; lia).
    assert (E3 : byte_to_Z b3 = byte_to_Z "h"%byte)
      by (change (byte_to_Z "h"%byte) with 104; lia).
    apply byte_to_Z_inj in E0, E1, E2, E3. subst. reflexivity.
Qed.

Lemma forward_scan_step (fuel : nat) (data : buffer) (p : Z) (st : state) :
  forward_scan (S fuel) data p st =
  if p + 4 <? size data then
    match load_u32 data p with
    | Some w =>
        if w =? Rich then (Value true, mkState p (p :: loads st))
        else forward_scan fuel data (p + 4) (logged p st)
    | None => (OutOfBounds, logged p st)
    end
  else (Value false, st).
Proof.
  simpl. destruct (p + 4 <? size data); [|reflexivity].
  unfold Mbind, memcmp_at. change (length rich_header_signature) with 4%nat.
  rewrite load_u32_bytes.
  destruct (load_bytes data p 4) as [bs|] eqn:E; [|reflexivity]. simpl.
  rewrite memcmp_rich by (apply length_mapM in E; rewrite <- E; reflexivity).
  destruct (bytes_word bs =? Rich); reflexivity.
Qed.

Lemma forward_scan_spec (fuel : nat) (data : buffer) :
  forall (p : Z) (st : state),
    0 <= p ->
    size data - p <= 4 * Z.of_nat fuel ->
    (0 < fuel)%nat ->
    exists new,
      loads (final (forward_scan fuel data p) st) = new ++ loads st /\
      Forall (fun q => p <= q /\ q + 4 < size data) new /\
      ((result (forward_scan fuel data p) st = Value false /\
        rhdr (final (forward_scan fuel data p) st) = rhdr st /\
        forall q, stride p (size data - 4) q -> ~ is_rich data q)
       \/
       (exists m,
           result (forward_scan fuel data p) st = Value true /\
           rhdr (final (forward_scan fuel data p) st) = m /\
           p <= m /\ (m - p) mod 4 = 0 /\ m + 4 < size data /\
           is_rich data m /\
           forall q, stride p m q -> ~ is_rich data q)).
Proof.
  induction fuel as [|fuel IH]; intros p st Hp Hfuel Hpos; [lia|].
  unfold result, final in *. rewrite forward_scan_step.
  destruct (Z.ltb_spec (p + 4) (size data)) as [Hlt|Hge].
  - destruct (load_u32_in_bounds data p) as [w Hw]; [lia..|]. rewrite Hw.
    destruct (Z.eqb_spec w Rich) as [->|Hne].
    + exists [p]. simpl. split; [reflexivity|]. split.
      { constructor; [lia | constructor]. }
      right. exists p. repeat split; try lia; try assumption.
      * rewrite Z.sub_diag. reflexivity.
      * intros q [Hq _]. lia.
    + destruct (IH (p + 4) (logged p st)) as (new & Hloads & Hall & Hcase);
        [lia | lia | lia |].
      exists (new ++ [p]). split.
      { rewrite Hloads. simpl. rewrite <- app_assoc. reflexivity. }
      split.
      { apply Forall_app. split.
        - eapply Forall_impl; [exact Hall|]. simpl. intros q Hq. lia.
        - constructor; [lia | constructor]. }
      assert (Hstep : forall hi q, stride p hi q -> q = p \/ stride (p + 4) hi q).
      { intros hi q [Hq Hmod]. destruct (Z.eq_dec q p) as [|Hqp]; [left; assumption|].
        right. split.
        - assert (q - p <> 0) by lia.
          assert (Hd := Z.div_mod (q - p) 4). lia.
        - replace (q - (p + 4)) with ((q - p) + (-1) * 4) by lia.
          rewrite Z.mod_add by lia. assumption. }
      assert (Hnot : ~ is_rich data p).
      { unfold is_rich. rewrite Hw. intros [= E]. contradiction. }
      destruct Hcase as [(Hres & Hrh & Hno) | (m & Hres & Hrh & Hpm & Hmod & Hm & Hrich & Hno)].
      * left. repeat split; try assumption.
        intros q Hq. destruct (Hstep _ _ Hq) as [->|Hq']; [assumption | auto].
      * right. exists m. repeat split; try assumption; try lia.
        { replace (m - p) with ((m - (p + 4)) + 1 * 4) by lia.
          rewrite Z.mod_add by lia. assumption. }
        intros q Hq. destruct (Hstep _ _ Hq) as [->|Hq']; [assumption | auto].
  - exists []. simpl. split; [reflexivity|]. split; [constructor|].
    left. repeat split. intros q [Hq _]. lia.
Qed.

(** ** The backward scan *)

Lemma backward_scan_step (fuel : nat) (data : buffer) (p : Z) (st : state) :
  backward_scan (S fuel) data p st =
  if 0 <=? p then
    match load_u32 data p with
    | Some w =>
        match load_u32 data (rhdr st + 4) with
        | Some key =>
            if Z.lxor w key =? DanS
            then (Value (rhdr st - p), logged (rhdr st + 4) (logged p st))
            else backward_scan fuel data (p - 4) (logged (rhdr st + 4) (logged p st))
        | None => (OutOfBounds, logged (rhdr st + 4) (logged p st))
        end
    | None => (OutOfBounds, logged p st)
    end
  else (Value (-2), st).
Proof.
  simpl. destruct (0 <=? p); [|reflexivity].
  unfold Mbind, load32, get_rhdr, Mret, offsetof_Key.
  destruct (load_u32 data p) as [w|]; [|reflexivity]. simpl.
  destruct (load_u32 data (rhdr st + 4)) as [key|]; [|reflexivity].
  fold DanS. destruct (Z.lxor w key =? DanS); reflexivity.
Qed.

Lemma walked_step (m q : Z) :
  walked m q -> q = m \/ walked (m - 4) q.
Proof.
  intros [Hq Hmod]. destruct (Z.eq_dec q m) as [|Hne]; [left; assumption|].
  right. split.
  - assert (Hd := Z.div_mod (m - q) 4). lia.
  - replace (m - 4 - q) with ((m - q) + (-1) * 4) by lia.
    rewrite Z.mod_add by lia. assumption.
Qed.

Lemma walked_up (m q : Z) : walked (m - 4) q -> walked m q.
Proof.
  intros [Hq Hmod]. split; [lia|].
  replace (m - q) with ((m - 4 - q) + 1 * 4) by lia.
  rewrite Z.mod_add by lia. assumption.
Qed.

(** With the key readable, the scan from [p] ends at the first visited
    offset that unmasks to "DanS", or with [-2] when there is none. *)
Lemma backward_scan_spec (fuel : nat) (data : buffer) (key : Z) :
  forall (p : Z) (st : state),
    load_u32 data (rhdr st + 4) = Some key ->
    p + 4 <= size data ->
    p + 8 <= 4 * Z.of_nat fuel ->
    (0 < fuel)%nat ->
    rhdr (final (backward_scan fuel data p) st) = rhdr st /\
    ((exists s, header_start data key p s /\
                result (backward_scan fuel data p) st = Value (rhdr st - s))
     \/ (no_dans data key p /\
         result (backward_scan fuel data p) st = Value (-2))).
Proof.
  induction fuel as [|fuel IH]; intros p st Hkey Hp Hfuel Hpos; [lia|].
  unfold result, final in *. rewrite backward_scan_step.
  destruct (Z.leb_spec 0 p) as [H0|Hneg].
  - destruct (load_u32_in_bounds data p) as [w Hw]; [lia..|].
    rewrite Hw, Hkey.
    destruct (Z.eqb_spec (Z.lxor w key) DanS) as [Heq|Hne].
    + split; [reflexivity|]. left. exists p. split; [|reflexivity].
      split; [|split].
      * split; [lia|]. rewrite Z.sub_diag. reflexivity.
      * exists w. split; assumption.
      * intros q [Hq _]. lia.
    + assert (Hnot : ~ is_dans data key p).
      { intros (w' & Hw' & Hx). rewrite Hw in Hw'. injection Hw' as <-. contradiction. }
      destruct (IH (p - 4) (logged (rhdr st + 4) (logged p st))) as [Hrh Hcase];
        [exact Hkey | lia | lia | lia |].
      split; [exact Hrh|]. simpl in Hcase.
      destruct Hcase as [(s & (Hws & Hds & Hfirst) & Hres) | (Hno & Hres)].
      * left. exists s. split; [|exact Hres].
        split; [apply walked_up; assumption|]. split; [assumption|].
        intros q Hq Hsq. destruct (walked_step _ _ Hq) as [->|Hq']; [assumption | auto].
      * right. split; [|exact Hres].
        intros q Hq. destruct (walked_step _ _ Hq) as [->|Hq']; [assumption | auto].
  - split; [reflexivity|]. right. split; [|reflexivity].
    intros q [Hq _]. lia.
Qed.

(** The backward scan only adds to the record of loads and leaves the
    caller's pointer where the forward scan put it. *)
Lemma backward_scan_loads (fuel : nat) (data : buffer) :
  forall (p : Z) (st : state),
    exists new,
      loads (final (backward_scan fuel data p) st) = new ++ loads st /\
      rhdr (final (backward_scan fuel data p) st) = rhdr st.
Proof.
  induction fuel as [|fuel IH]; intros p st.
  - exists []. split; reflexivity.
  - unfold final in *. rewrite backward_scan_step.
    destruct (0 <=? p); [|exists []; split; reflexivity].
    destruct (load_u32 data p) as [w|]; [|exists [p]; split; reflexivity].
    destruct (load_u32 data (rhdr st + 4)) as [key|];
      [|exists [rhdr st + 4; p]; split; reflexivity].
    destruct (Z.lxor w key =? DanS); [exists [rhdr st + 4; p]; split; reflexivity|].
    destruct (IH (p - 4) (logged (rhdr st + 4) (logged p st))) as (new & Hl & Hr).
    exists (new ++ [rhdr st + 4; p]). rewrite Hl, Hr. simpl.
    rewrite <- app_assoc. split; reflexivity.
Qed.

(** ** The whole call *)

Lemma stride_scanned (data : buffer) (q : Z) :
  scanned data q <-> stride 64 (size data - 4) q.
Proof. unfold scanned, stride. lia. Qed.

Lemma rich_header_from_data_unfold (data : buffer) (st : state) :
  rich_header_from_data data st =
  match forward_scan (S (length data)) data 64 st with
  | (Value true, st1) => backward_scan (S (length data)) data (rhdr st1) st1
  | (Value false, st1) => (Value (-1), st1)
  | (OutOfBounds, st1) => (OutOfBounds, st1)
  | (OutOfFuel, st1) => (OutOfFuel, st1)
  end.
Proof.
  unfold rich_header_from_data, Mbind.
  destruct (forward_scan (S (length data)) data 64 st) as [[[|]| |] st1]; reflexivity.
Qed.

Lemma rich_header_from_data_located (data : buffer) (st : state) :
  located data (rhdr st)
    (result (rich_header_from_data data) st)
    (rhdr (final (rich_header_from_data data) st)).
Proof.
  unfold result, final. rewrite rich_header_from_data_unfold.
  destruct (forward_scan_spec (S (length data)) data 64 st)
    as (new & _ & _ & Hcase); [lia | unfold size; lia | lia |].
  unfold result, final in Hcase.
  destruct (forward_scan (S (length data)) data 64 st) as [o st1].
  simpl in Hcase.
  destruct Hcase as [(-> & Hrh & Hno) | (m & -> & Hrh & Hpm & Hmod & Hm & Hrich & Hno)].
  - simpl. rewrite Hrh. apply NotFound.
    intros q Hq. apply Hno, stride_scanned, Hq.
  - assert (Hfirst : first_rich data m).
    { split; [split; [lia | split; [assumption | lia]]|]. split; [assumption|].
      intros q (H64 & Hqm & _) Hlt. apply Hno. split; [lia | assumption]. }
    rewrite Hrh.
    destruct (load_u32 data (m + 4)) as [key|] eqn:Hkey.
    + destruct (backward_scan_spec (S (length data)) data key m st1)
        as [Hr Hcase]; [rewrite Hrh; exact Hkey | lia | unfold size in Hm; lia | lia |].
      unfold result, final in Hr, Hcase.
      destruct (backward_scan (S (length data)) data m st1) as [o st2].
      simpl in *. rewrite Hr, Hrh.
      destruct Hcase as [(s & Hs & ->) | (Hnone & ->)].
      * rewrite Hrh. eapply Found; eassumption.
      * eapply LengthUnrecoverable; eassumption.
    + rewrite backward_scan_step.
      destruct (Z.leb_spec 0 m); [|lia].
      destruct (load_u32_in_bounds data m) as [w ->]; [lia..|].
      rewrite Hrh, Hkey. simpl. rewrite Hrh. apply KeyOutside; assumption.
Qed.

(** A call always ends within the iteration budget of the model. *)
Lemma rich_header_from_data_terminates (data : buffer) (st : state) :
  result (rich_header_from_data data) st <> OutOfFuel.
Proof.
  destruct (rich_header_from_data_located data st); discriminate.
Qed.

Lemma first_rich_unique (data : buffer) (m m' : Z) :
  first_rich data m -> first_rich data m' -> m = m'.
Proof.
  intros (Hs & Hr & Hf) (Hs' & Hr' & Hf').
  destruct (Z.lt_trichotomy m m') as [Hlt | [Heq | Hgt]]; [|assumption|].
  - exfalso. exact (Hf' m Hs Hlt Hr).
  - exfalso. exact (Hf m' Hs' Hgt Hr').
Qed.

Lemma header_start_unique (data : buffer) (key m s s' : Z) :
  header_start data key m s -> header_start data key m s' -> s = s'.
Proof.
  intros (Hw & Hd & Hf) (Hw' & Hd' & Hf').
  destruct (Z.lt_trichotomy s s') as [Hlt | [Heq | Hgt]]; [|assumption|].
  - exfalso. exact (Hf s' Hw' Hlt Hd').
  - exfalso. exact (Hf' s Hw Hgt Hd).
Qed.

Lemma first_rich_not_no_rich (data : buffer) (m : Z) :
  first_rich data m -> no_rich data -> False.
Proof. intros (Hs & Hr & _) Hno. exact (Hno m Hs Hr). Qed.

(** ** Consequences for the caller *)

Lemma not_found_iff (data : buffer) (st : state) :
  result (rich_header_from_data data) st = Value (-1) <-> no_rich data.
Proof.
  pose proof (rich_header_from_data_located data st) as H.
  split.
  - intros E. rewrite E in H. inversion H as [Hno | | |m key s Hf Hk Hs Hv]; [assumption|].
    destruct Hs as ((Hs & _) & _). lia.
  - intros Hno. inversion H as [| m Hf | m key Hf | m key s Hf]; [reflexivity|..];
      exfalso; eapply first_rich_not_no_rich; eassumption.
Qed.

Lemma found_rhdr (data : buffer) (st : state) (m : Z) :
  first_rich data m -> rhdr (final (rich_header_from_data data) st) = m.
Proof.
  intros Hm. pose proof (rich_header_from_data_located data st) as H.
  inversion H as [Hno | m' Hf | m' key Hf | m' key s Hf];
    [exfalso; eapply first_rich_not_no_rich; eassumption|..];
    eapply first_rich_unique; eassumption.
Qed.

Lemma not_found_rhdr (data : buffer) (st : state) :
  no_rich data -> rhdr (final (rich_header_from_data data) st) = rhdr st.
Proof.
  intros Hno. pose proof (rich_header_from_data_located data st) as H.
  inversion H as [ | m Hf | m key Hf | m key s Hf]; [reflexivity|..];
    exfalso; eapply first_rich_not_no_rich; eassumption.
Qed.

Lemma located_cases (data : buffer) (r0 : Z) (o : outcome Z) (r : Z) :
  located data r0 o r ->
  (o = Value (-1) /\ r = r0 /\ no_rich data) \/
  (first_rich data r /\
   ((load_u32 data (r + 4) = None /\ o = OutOfBounds) \/
    exists key, load_u32 data (r + 4) = Some key /\
      ((no_dans data key r /\ o = Value (-2)) \/
       exists s, header_start data key r s /\ o = Value (r - s)))).
Proof.
  destruct 1 as [Hno | m Hf Hk | m key Hf Hk Hno | m key s Hf Hk Hs].
  - left. auto.
  - right. split; [assumption|]. left. auto.
  - right. split; [assumption|]. right. exists key. split; [assumption|]. left. auto.
  - right. split; [assumption|]. right. exists key. split; [assumption|]. right. eauto.
Qed.

Lemma key_outside_iff (data : buffer) (st : state) :
  result (rich_header_from_data data) st = OutOfBounds <->
  exists m, first_rich data m /\ load_u32 data (m + 4) = None.
Proof.
  destruct (located_cases _ _ _ _ (rich_header_from_data_located data st))
    as [(Ho & _ & Hno) | (Hf & [(Hk & Ho) | (key & Hk & [(_ & Ho) | (s & _ & Ho)])])];
    rewrite Ho; (split; [intros E | intros (m & Hm & Hkm)]);
    try discriminate; try reflexivity; eauto.
  - exfalso. eapply first_rich_not_no_rich; eassumption.
  - rewrite <- (first_rich_unique _ _ _ Hf Hm) in Hkm. congruence.
  - rewrite <- (first_rich_unique _ _ _ Hf Hm) in Hkm. congruence.
Qed.

Lemma located_found (data : buffer) (st : state) (m key s : Z) :
  first_rich data m ->
  load_u32 data (m + 4) = Some key ->
  header_start data key m s ->
  result (rich_header_from_data data) st = Value (m - s).
Proof.
  intros Hm Hkey Hs.
  pose proof (found_rhdr data st m Hm) as Hr.
  destruct (located_cases _ _ _ _ (rich_header_from_data_located data st))
    as [(_ & _ & Hno) | (Hf & [(Hk & _) | (key' & Hk & Hcase)])];
    rewrite ?Hr in *.
  - exfalso. eapply first_rich_not_no_rich; eassumption.
  - congruence.
  - rewrite Hkey in Hk. injection Hk as <-.
    destruct Hcase as [(Hnone & _) | (s' & Hs' & Ho)].
    + destruct Hs as (Hw & Hd & _). exfalso. exact (Hnone s Hw Hd).
    + rewrite (header_start_unique _ _ _ _ _ Hs Hs'). assumption.
Qed.

(** ** rich_header_from_data: the claims *)

(** C1, as stated, fails: with the masked "DanS" in the word just before
    "Rich", the call succeeds with length 4, which is below 16. *)
Lemma C1_length_invariant_counterexample :
  result (rich_header_from_data dans_next_to_rich) st0 = Value 4 /\
  ~ length_invariant 4.
Proof.
  split; [vm_compute; reflexivity|].
  unfold length_invariant. lia.
Qed.

(** C1, amended: a non-negative result [v] is a multiple of 4 between 0
    and the offset of "Rich", and [rich_offset - v] is the offset closest
    to "Rich" among those visited whose word unmasks to "DanS"; no check
    that [v] is at least 16, or 16 plus a multiple of 8, is made. *)
Theorem C1_returned_length (data : buffer) (st : state) (v : Z) :
  result (rich_header_from_data data) st = Value v ->
  0 <= v ->
  let r := rhdr (final (rich_header_from_data data) st) in
  v mod 4 = 0 /\ v <= r /\
  exists key, load_u32 data (r + 4) = Some key /\
              header_start data key r (r - v).
Proof.
  intros Hres Hv r. subst r.
  destruct (located_cases _ _ _ _ (rich_header_from_data_located data st))
    as [(Ho & _) | (Hf & [(_ & Ho) | (key & Hk & [(_ & Ho) | (s & Hs & Ho)])])];
    rewrite Ho in Hres; try discriminate; injection Hres as <-; try lia.
  set (r := rhdr (final (rich_header_from_data data) st)) in *.
  pose proof Hs as ((Hrange & Hmod) & _).
  replace (r - (r - s)) with s by lia.
  split; [assumption|]. split; [lia|]. exists key. split; assumption.
Qed.

Lemma C1_returned_length_witness :
  let r := rhdr (final (rich_header_from_data dans_next_to_rich) st0) in
  4 mod 4 = 0 /\ 4 <= r /\
  exists key, load_u32 dans_next_to_rich (r + 4) = Some key /\
              header_start dans_next_to_rich key r (r - 4).
Proof.
  apply (C1_returned_length dans_next_to_rich st0 4).
  - vm_compute. reflexivity.
  - lia.
Defined.

(** C3, as stated, fails: when "Rich" is found and no "DanS" precedes it,
    the call returns -2 and the caller's pointer has moved from 0 to 64. *)
Lemma C3_rhdr_unchanged_counterexample :
  result (rich_header_from_data tail_only) st0 = Value (-2) /\
  rhdr (final (rich_header_from_data tail_only) st0) <> rhdr st0.
Proof.
  split; [vm_compute; reflexivity|].
  vm_compute. discriminate.
Qed.

(** C3, amended: when the call returns -1 the caller's pointer is left
    as it was; when it returns -2 the pointer has been set to the "Rich"
    marker that was found. *)
Theorem C3_rhdr_after_failure (data : buffer) (st : state) :
  (result (rich_header_from_data data) st = Value (-1) ->
   rhdr (final (rich_header_from_data data) st) = rhdr st) /\
  (result (rich_header_from_data data) st = Value (-2) ->
   first_rich data (rhdr (final (rich_header_from_data data) st))).
Proof.
  destruct (located_cases _ _ _ _ (rich_header_from_data_located data st))
    as [(Ho & Hr & _) | (Hf & [(_ & Ho) | (key & Hk & [(_ & Ho) | (s & Hs & Ho)])])];
    rewrite Ho; (split; intros E); try discriminate; try assumption.
  destruct Hs as ((Hs & _) & _). injection E as E. lia.
Qed.

(** C4, as stated, fails: "Rich" at offset 65 with its 4 key bytes as
    the last bytes of the buffer is not found, because offset 65 is not
    one the scan tests. *)
Lemma C4_marker_at_edge_counterexample :
  is_rich tail_at_65 65 /\ size tail_at_65 = 65 + 8 /\
  result (rich_header_from_data tail_at_65) st0 = Value (-1).
Proof. repeat split; vm_compute; reflexivity. Qed.

(** C4, amended: when the first "Rich" at a tested offset (64, 68, ...)
    has its 4 key bytes as the last bytes of the buffer, the marker is
    found: the caller's pointer is set to it, the key is read inside the
    buffer, and the result is the length or -2, never -1. *)
Theorem C4_marker_at_edge (data : buffer) (st : state) (m : Z) :
  first_rich data m ->
  size data = m + 8 ->
  rhdr (final (rich_header_from_data data) st) = m /\
  exists key, load_u32 data (m + 4) = Some key /\
    (result (rich_header_from_data data) st = Value (-2) \/
     exists s, header_start data key m s /\
               result (rich_header_from_data data) st = Value (m - s)).
Proof.
  intros Hm Hsize.
  pose proof (found_rhdr data st m Hm) as Hr.
  split; [assumption|].
  destruct (load_u32_in_bounds data (m + 4)) as [key Hkey];
    [destruct Hm as ((? & _) & _); lia | lia |].
  exists key. split; [assumption|].
  destruct (located_cases _ _ _ _ (rich_header_from_data_located data st))
    as [(_ & _ & Hno) | (Hf & [(Hk & _) | (key' & Hk & [(_ & Ho) | (s & Hs & Ho)])])];
    rewrite ?Hr in *.
  - exfalso. eapply first_rich_not_no_rich; eassumption.
  - congruence.
  - left. assumption.
  - right. exists s. rewrite Hkey in Hk. injection Hk as <-. split; assumption.
Qed.

Lemma first_rich_64 (data : buffer) :
  68 < size data -> is_rich data 64 -> first_rich data 64.
Proof.
  intros Hsize Hrich. split; [|split; [assumption|]].
  - split; [lia|]. split; [reflexivity | lia].
  - intros q (Hq & _) Hlt. lia.
Qed.

Lemma C4_marker_at_edge_witness :
  rhdr (final (rich_header_from_data tail_only) st0) = 64 /\
  exists key, load_u32 tail_only (64 + 4) = Some key /\
    (result (rich_header_from_data tail_only) st0 = Value (-2) \/
     exists s, header_start tail_only key 64 s /\
               result (rich_header_from_data tail_only) st0 = Value (64 - s)).
Proof.
  apply (C4_marker_at_edge tail_only st0 64).
  - apply first_rich_64; [vm_compute; reflexivity | reflexivity].
  - reflexivity.
Defined.

(** With the key cut short by one byte the marker is still accepted (the
    loop only asks for 5 bytes from the marker on), and the key is read
    across the end of the buffer. *)
Lemma key_cut_short_reads_outside :
  size key_cut_short = 64 + 7 /\
  rich_header_from_data key_cut_short st0
  = (OutOfBounds, mkState 64 [68; 64; 64]).
Proof. split; vm_compute; reflexivity. Qed.

(** C5: once "Rich" is found at [m] with key [key], the call returns
    [m - s] for the visited offset [s] closest to [m] whose word unmasks
    to "DanS", whatever the words in between unmask to, and returns -2
    when no visited offset down to 0 has such a word. *)
Theorem C5_backward_scan (data : buffer) (st : state) (m key : Z) :
  first_rich data m ->
  load_u32 data (m + 4) = Some key ->
  (forall s, header_start data key m s ->
             result (rich_header_from_data data) st = Value (m - s)) /\
  (no_dans data key m ->
   result (rich_header_from_data data) st = Value (-2)) /\
  ((exists s, header_start data key m s) \/ no_dans data key m).
Proof.
  intros Hm Hkey.
  pose proof (found_rhdr data st m Hm) as Hr.
  destruct (located_cases _ _ _ _ (rich_header_from_data_located data st))
    as [(_ & _ & Hno) | (Hf & [(Hk & _) | (key' & Hk & Hcase)])];
    rewrite ?Hr in *.
  - exfalso. eapply first_rich_not_no_rich; eassumption.
  - congruence.
  - rewrite Hkey in Hk. injection Hk as <-.
    destruct Hcase as [(Hnone & Ho) | (s & Hs & Ho)].
    + split; [|split; [intros _; assumption | right; assumption]].
      intros s (Hw & Hd & _). exfalso. exact (Hnone s Hw Hd).
    + split; [|split; [|left; eauto]].
      * intros s' Hs'. rewrite (header_start_unique _ _ _ _ _ Hs' Hs). assumption.
      * intros Hnone. destruct Hs as (Hw & Hd & _). exfalso. exact (Hnone s Hw Hd).
Qed.

Lemma C5_backward_scan_witness :
  (forall s, header_start minimal_header key1 64 s ->
             result (rich_header_from_data minimal_header) st0 = Value (64 - s)) /\
  (no_dans minimal_header key1 64 ->
   result (rich_header_from_data minimal_header) st0 = Value (-2)) /\
  ((exists s, header_start minimal_header key1 64 s) \/ no_dans minimal_header key1 64).
Proof.
  apply (C5_backward_scan minimal_header st0 64 key1).
  - apply first_rich_64; [vm_compute; reflexivity | reflexivity].
  - reflexivity.
Defined.

(** A word that unmasks to zero is not the masked "DanS": it does not
    end the backward scan. *)
Lemma zero_word_not_dans (data : buffer) (key q w : Z) :
  load_u32 data q = Some w -> Z.lxor w key = 0 -> ~ is_dans data key q.
Proof.
  intros Hw Hz (w' & Hw' & Hd). rewrite Hw in Hw'. injection Hw' as <-.
  rewrite Hz, DanS_value in Hd. discriminate.
Qed.

(** The three padding words before "Rich" unmask to zero and the scan
    walks over them to the masked "DanS" at offset 48. *)
Lemma minimal_header_length :
  result (rich_header_from_data minimal_header) st0 = Value 16.
Proof. vm_compute. reflexivity. Qed.

(** ** Bytes before offset 64 *)

Lemma same_from_64_load (b1 b2 : buffer) (q : Z) :
  same_from_64 b1 b2 -> 64 <= q -> load_u32 b1 q = load_u32 b2 q.
Proof.
  intros [_ Hsame] Hq. unfold load_u32, load_u8, load_byte.
  repeat match goal with
         | |- context [?x <? 0] => destruct (Z.ltb_spec x 0); [lia|]
         end.
  rewrite !Hsame by lia. reflexivity.
Qed.

Lemma same_from_64_size (b1 b2 : buffer) :
  same_from_64 b1 b2 -> size b1 = size b2.
Proof. intros [Hlen _]. unfold size. rewrite Hlen. reflexivity. Qed.

Lemma same_from_64_sym (b1 b2 : buffer) :
  same_from_64 b1 b2 -> same_from_64 b2 b1.
Proof. intros [Hlen H]. split; [auto | intros i Hi; symmetry; auto]. Qed.

Lemma same_from_64_scanned (b1 b2 : buffer) (q : Z) :
  same_from_64 b1 b2 -> scanned b1 q -> scanned b2 q.
Proof.
  intros Hs. unfold scanned. rewrite (same_from_64_size _ _ Hs). tauto.
Qed.

Lemma same_from_64_is_rich (b1 b2 : buffer) (q : Z) :
  same_from_64 b1 b2 -> 64 <= q -> is_rich b1 q -> is_rich b2 q.
Proof.
  intros Hs Hq. unfold is_rich. rewrite (same_from_64_load _ _ _ Hs Hq). tauto.
Qed.

Lemma same_from_64_no_rich (b1 b2 : buffer) :
  same_from_64 b1 b2 -> no_rich b1 -> no_rich b2.
Proof.
  intros Hs Hno q Hq Hr. apply same_from_64_sym in Hs.
  apply (Hno q).
  - eapply same_from_64_scanned; eassumption.
  - eapply same_from_64_is_rich; [eassumption | destruct Hq; lia | assumption].
Qed.

Lemma same_from_64_first_rich (b1 b2 : buffer) (m : Z) :
  same_from_64 b1 b2 -> first_rich b1 m -> first_rich b2 m.
Proof.
  intros Hs (Hsc & Hr & Hfirst). pose proof Hsc as (H64 & _).
  split; [eapply same_from_64_scanned; eassumption|].
  split; [eapply same_from_64_is_rich; eassumption|].
  intros q Hq Hlt Hrq. apply same_from_64_sym in Hs. apply (Hfirst q).
  - eapply same_from_64_scanned; eassumption.
  - assumption.
  - eapply same_from_64_is_rich; [eassumption | destruct Hq; lia | assumption].
Qed.

Lemma forward_scan_ext (fuel : nat) (b1 b2 : buffer) :
  size b1 = size b2 ->
  forall (p : Z) (st : state),
    (forall q, p <= q -> load_u32 b1 q = load_u32 b2 q) ->
    forward_scan fuel b1 p st = forward_scan fuel b2 p st.
Proof.
  intros Hsize. induction fuel as [|fuel IH]; intros p st Hload; [reflexivity|].
  rewrite !forward_scan_step, Hsize, (Hload p) by lia.
  destruct (p + 4 <? size b2); [|reflexivity].
  destruct (load_u32 b2 p) as [w|]; [|reflexivity].
  destruct (w =? Rich); [reflexivity|].
  apply IH. intros q Hq. apply Hload. lia.
Qed.

(** Two buffers that agree on every byte from offset [lo] on hold the
    same words from there on. *)
Lemma load_u32_agree (b1 b2 : buffer) (lo q : Z) :
  (forall i : nat, lo <= Z.of_nat i -> b1 !! i = b2 !! i) ->
  0 <= q -> lo <= q ->
  load_u32 b1 q = load_u32 b2 q.
Proof.
  intros Hsame H0 Hq. unfold load_u32, load_u8, load_byte.
  repeat match goal with
         | |- context [?x <? 0] => destruct (Z.ltb_spec x 0); [lia|]
         end.
  rewrite !Hsame by lia. reflexivity.
Qed.

(** A length found in one buffer is found in the other when the two also
    agree between the start of the header and offset 64: the backward
    scan reads nothing before the start it finds. *)
Lemma same_from_64_found (b1 b2 : buffer) (st : state) (v : Z) :
  same_from_64 b1 b2 ->
  0 <= v ->
  (forall i : nat,
      rhdr (final (rich_header_from_data b1) st) - v <= Z.of_nat i < 64 ->
      b1 !! i = b2 !! i) ->
  result (rich_header_from_data b1) st = Value v ->
  result (rich_header_from_data b2) st = Value v.
Proof.
  intros Hs Hv Hlow Hres.
  destruct (located_cases _ _ _ _ (rich_header_from_data_located b1 st))
    as [(Ho & _) | (Hf & [(_ & Ho) | (key & Hk & [(_ & Ho) | (s & Hstart & Ho)])])];
    rewrite Ho in Hres; try discriminate; injection Hres as <-; try lia.
  set (m := rhdr (final (rich_header_from_data b1) st)) in *.
  pose proof Hf as ((H64 & _) & _).
  pose proof Hstart as ((Hs0 & Hsm) & Hd & Hmin).
  assert (Hagree : forall q, s <= q -> load_u32 b1 q = load_u32 b2 q).
  { intros q Hq. apply (load_u32_agree b1 b2 s); [|lia | assumption].
    intros i Hi. destruct (Z_lt_le_dec (Z.of_nat i) 64) as [Hlt|Hge].
    - apply Hlow. lia.
    - destruct Hs as [_ Hsame]. apply Hsame. lia. }
  assert (Hdans : forall q, s <= q -> is_dans b1 key q -> is_dans b2 key q).
  { intros q Hq (w & Hw & Hx). exists w. rewrite <- Hagree by assumption. auto. }
  assert (Hdans' : forall q, s <= q -> is_dans b2 key q -> is_dans b1 key q).
  { intros q Hq (w & Hw & Hx). exists w. rewrite Hagree by assumption. auto. }
  apply (located_found b2 st m key s).
  - eapply same_from_64_first_rich; eassumption.
  - rewrite <- Hk. symmetry. apply same_from_64_load; [assumption | lia].
  - split; [split; assumption|]. split; [apply Hdans; [lia | assumption]|].
    intros q Hq Hlt Hq2. apply (Hmin q Hq Hlt). apply Hdans'; [lia | assumption].
Qed.

(** The same header tail in two buffers that differ in bytes 60..63 only. *)
Lemma tail_only_same_from_64 : same_from_64 tail_only dans_next_to_rich.
Proof.
  split; [reflexivity|]. intros i Hi.
  do 64 (destruct i as [|i]; [lia|]). reflexivity.
Qed.

(** C6, as stated, fails: two buffers of equal length that differ only
    in bytes 60 to 63 give -2 and 4. *)
Lemma C6_bytes_before_64_counterexample :
  same_from_64 tail_only dans_next_to_rich /\
  result (rich_header_from_data tail_only) st0 = Value (-2) /\
  result (rich_header_from_data dans_next_to_rich) st0 = Value 4.
Proof.
  split; [exact tail_only_same_from_64|].
  split; vm_compute; reflexivity.
Qed.

(** C6, amended: the forward scan loads nothing below offset 64 and does
    not depend on bytes before offset 64. On two buffers of equal length
    that agree from offset 64 on, it runs identically (same found flag,
    same pointer, same loads), so both calls agree on whether the result
    is -1, on the marker the caller's pointer is left at, on the key and
    on whether the key lies outside the buffer. The backward scan reads
    the words from the marker down to the start of the header and none
    before it: a length whose header starts at or after offset 64 is
    returned for both buffers or for neither, and so is a length whose
    header starts below offset 64 when the buffers also agree from that
    start up to offset 63. Only a byte that differs between offset 0 and
    offset 63, at or after the start found, or anywhere when -2 is
    returned, can change the result. *)
Theorem C6_forward_scan_from_64 (b1 b2 : buffer) (st : state) :
  same_from_64 b1 b2 ->
  (exists new,
      loads (final (forward_scan (S (length b1)) b1 64) st) = new ++ loads st /\
      Forall (fun q => 64 <= q) new) /\
  forward_scan (S (length b1)) b1 64 st = forward_scan (S (length b2)) b2 64 st /\
  (result (rich_header_from_data b1) st = Value (-1) <->
   result (rich_header_from_data b2) st = Value (-1)) /\
  (result (rich_header_from_data b1) st = OutOfBounds <->
   result (rich_header_from_data b2) st = OutOfBounds) /\
  rhdr (final (rich_header_from_data b1) st) =
  rhdr (final (rich_header_from_data b2) st) /\
  (forall m, first_rich b1 m ->
             first_rich b2 m /\ load_u32 b1 (m + 4) = load_u32 b2 (m + 4)) /\
  (forall v, 0 <= v ->
             64 <= rhdr (final (rich_header_from_data b1) st) - v ->
             (result (rich_header_from_data b1) st = Value v <->
              result (rich_header_from_data b2) st = Value v)) /\
  (forall v, 0 <= v ->
             (forall i : nat,
                 rhdr (final (rich_header_from_data b1) st) - v <= Z.of_nat i < 64 ->
                 b1 !! i = b2 !! i) ->
             (result (rich_header_from_data b1) st = Value v <->
              result (rich_header_from_data b2) st = Value v)).
Proof.
  intros Hs. pose proof (same_from_64_sym _ _ Hs) as Hs'.
  assert (Hr : rhdr (final (rich_header_from_data b1) st) =
               rhdr (final (rich_header_from_data b2) st)).
  { destruct (located_cases _ _ _ _ (rich_header_from_data_located b1 st))
      as [(_ & -> & Hno) | (Hf & _)].
    - symmetry. apply not_found_rhdr. eapply same_from_64_no_rich; eassumption.
    - symmetry. apply found_rhdr. eapply same_from_64_first_rich; eassumption. }
  assert (Hgen : forall v, 0 <= v ->
             (forall i : nat,
                 rhdr (final (rich_header_from_data b1) st) - v <= Z.of_nat i < 64 ->
                 b1 !! i = b2 !! i) ->
             (result (rich_header_from_data b1) st = Value v <->
              result (rich_header_from_data b2) st = Value v)).
  { intros v Hv Hlow. split.
    - apply same_from_64_found; assumption.
    - apply same_from_64_found; [assumption | assumption |].
      intros i Hi. symmetry. apply Hlow. rewrite Hr. assumption. }
  split; [|split; [|split; [|split; [|split; [|split; [|split]]]]]].
  - destruct (forward_scan_spec (S (length b1)) b1 64 st)
      as (new & Hloads & Hall & _); [lia | unfold size; lia | lia |].
    exists new. split; [assumption|].
    eapply Forall_impl; [exact Hall|]. simpl. intros q Hq. lia.
  - destruct Hs as [Hlen Hsame]. rewrite Hlen. apply forward_scan_ext.
    + unfold size. rewrite Hlen. reflexivity.
    + intros q Hq. apply same_from_64_load; [split; assumption | assumption].
  - rewrite !not_found_iff. split; apply same_from_64_no_rich; assumption.
  - rewrite !key_outside_iff.
    split; intros (m & Hm & Hk); exists m; pose proof Hm as ((H64 & _) & _).
    + split; [eapply same_from_64_first_rich; eassumption|].
      rewrite <- Hk. apply same_from_64_load; [assumption | lia].
    + split; [eapply same_from_64_first_rich; eassumption|].
      rewrite <- Hk. apply same_from_64_load; [assumption | lia].
  - assumption.
  - intros m Hm. pose proof Hm as ((H64 & _) & _).
    split; [eapply same_from_64_first_rich; eassumption|].
    apply same_from_64_load; [assumption | lia].
  - intros v Hv Hstart. apply Hgen; [assumption|]. intros i Hi. lia.
  - exact Hgen.
Qed.

Lemma C6_forward_scan_from_64_witness :
  let b1 := scenario in
  let b2 := assemble mz_pad key1 [utc1600_c] in
  (exists new,
      loads (final (forward_scan (S (length b1)) b1 64) st0) = new ++ loads st0 /\
      Forall (fun q => 64 <= q) new) /\
  forward_scan (S (length b1)) b1 64 st0 = forward_scan (S (length b2)) b2 64 st0 /\
  (result (rich_header_from_data b1) st0 = Value (-1) <->
   result (rich_header_from_data b2) st0 = Value (-1)) /\
  (result (rich_header_from_data b1) st0 = OutOfBounds <->
   result (rich_header_from_data b2) st0 = OutOfBounds) /\
  rhdr (final (rich_header_from_data b1) st0) =
  rhdr (final (rich_header_from_data b2) st0) /\
  (forall m, first_rich b1 m ->
             first_rich b2 m /\ load_u32 b1 (m + 4) = load_u32 b2 (m + 4)) /\
  (forall v, 0 <= v ->
             64 <= rhdr (final (rich_header_from_data b1) st0) - v ->
             (result (rich_header_from_data b1) st0 = Value v <->
              result (rich_header_from_data b2) st0 = Value v)) /\
  (forall v, 0 <= v ->
             (forall i : nat,
                 rhdr (final (rich_header_from_data b1) st0) - v <= Z.of_nat i < 64 ->
                 b1 !! i = b2 !! i) ->
             (result (rich_header_from_data b1) st0 = Value v <->
              result (rich_header_from_data b2) st0 = Value v)).
Proof.
  apply (C6_forward_scan_from_64 scenario (assemble mz_pad key1 [utc1600_c]) st0).
  split; [reflexivity|]. intros i Hi.
  do 64 (destruct i as [|i]; [lia|]). reflexivity.
Defined.

(** The scenario after zero padding and after padding that starts with
    "MZ": the two files differ in their first two bytes, the header
    starts at offset 64 in both, and both calls return 24. *)
Lemma scenario_length_with_mz :
  result (rich_header_from_data scenario) st0 = Value 24 /\
  result (rich_header_from_data (assemble mz_pad key1 [utc1600_c])) st0 = Value 24.
Proof. split; vm_compute; reflexivity. Qed.

(** C8, as stated, fails: "Rich" at offset 66, well inside the buffer,
    is not found. *)
Lemma C8_byte_granular_counterexample :
  64 <= 66 /\ 66 + 4 <= size tail_at_66 /\ is_rich tail_at_66 66 /\
  result (rich_header_from_data tail_at_66) st0 = Value (-1).
Proof.
  split; [lia|]. split; [vm_compute; discriminate|].
  split; vm_compute; reflexivity.
Qed.

(** C8, amended: the scan moves one [uint32_t] at a time from offset 64.
    A "Rich" at an offset [m >= 64] with [m - 64] a multiple of 4 and more
    than 4 bytes left from [m] is seen: the result is not -1, and the
    caller's pointer is left at the first such marker, at [m] or before. *)
Theorem C8_word_granular (data : buffer) (st : state) (m : Z) :
  scanned data m ->
  is_rich data m ->
  result (rich_header_from_data data) st <> Value (-1) /\
  exists m', first_rich data m' /\ m' <= m /\
             rhdr (final (rich_header_from_data data) st) = m'.
Proof.
  intros Hsc Hr.
  assert (Hsome : ~ no_rich data) by (intros Hno; exact (Hno m Hsc Hr)).
  split; [rewrite not_found_iff; assumption|].
  destruct (located_cases _ _ _ _ (rich_header_from_data_located data st))
    as [(_ & _ & Hno) | (Hf & _)]; [contradiction|].
  eexists. split; [exact Hf|]. split; [|reflexivity].
  destruct Hf as (_ & _ & Hfirst).
  destruct (Z_le_gt_dec (rhdr (final (rich_header_from_data data) st)) m) as [|Hgt];
    [assumption|].
  exfalso. apply (Hfirst m Hsc); [lia | assumption].
Qed.

Lemma C8_word_granular_witness :
  result (rich_header_from_data minimal_header) st0 <> Value (-1) /\
  exists m', first_rich minimal_header m' /\ m' <= 64 /\
             rhdr (final (rich_header_from_data minimal_header) st0) = m'.
Proof.
  apply (C8_word_granular minimal_header st0 64).
  - split; [lia|]. split; [reflexivity | vm_compute; reflexivity].
  - reflexivity.
Defined.

(** C10: on a buffer of at most 68 bytes the call returns -1 at once; the
    caller's pointer is as before and nothing was loaded from the buffer,
    inside or outside it. *)
Theorem C10_short_buffer (data : buffer) (st : state) :
  size data <= 68 ->
  rich_header_from_data data st = (Value (-1), st).
Proof.
  intros Hsize. rewrite rich_header_from_data_unfold, forward_scan_step.
  destruct (Z.ltb_spec (64 + 4) (size data)); [lia | reflexivity].
Qed.

Lemma C10_short_buffer_witness :
  rich_header_from_data (zeros 68) st0 = (Value (-1), st0).
Proof.
  apply (C10_short_buffer (zeros 68) st0).
  vm_compute. discriminate.
Defined.

(** ** Words in memory *)

Lemma lxor_range (a b : Z) :
  0 <= a < 2 ^ 32 -> 0 <= b < 2 ^ 32 -> 0 <= Z.lxor a b < 2 ^ 32.
Proof.
  intros Ha Hb.
  assert (Hnn : 0 <= Z.lxor a b) by (apply Z.lxor_nonneg; lia).
  split; [assumption|].
  destruct (Z.eq_dec (Z.lxor a b) 0) as [->|Hne]; [lia|].
  apply Z.log2_lt_pow2; [lia|].
  pose proof (Z.log2_lxor a b ltac:(lia) ltac:(lia)) as Hl.
  assert (Z.log2 a < 32).
  { destruct (Z.eq_dec a 0) as [->|]; [simpl; lia|]. apply Z.log2_lt_pow2; lia. }
  assert (Z.log2 b < 32).
  { destruct (Z.eq_dec b 0) as [->|]; [simpl; lia|]. apply Z.log2_lt_pow2; lia. }
  lia.
Qed.

Lemma store_u32_size (mem mem' : buffer) (off w : Z) :
  store_u32 mem off w = Some mem' -> size mem' = size mem.
Proof.
  unfold store_u32. destruct (_ && _); [|discriminate].
  intros [= <-]. unfold size. rewrite !length_insert. reflexivity.
Qed.

Lemma store_u32_in_bounds (mem : buffer) (off w : Z) :
  0 <= off -> off + 4 <= size mem -> exists mem', store_u32 mem off w = Some mem'.
Proof.
  intros H0 H4. unfold store_u32.
  destruct (Z.leb_spec 0 off); [|lia].
  destruct (Z.leb_spec (off + 4) (size mem)); [|lia].
  simpl. eauto.
Qed.

(** Bytes outside the stored word are as before. *)
Lemma store_u32_other (mem mem' : buffer) (off w q : Z) :
  store_u32 mem off w = Some mem' ->
  q < off \/ off + 4 <= q ->
  load_u8 mem' q = load_u8 mem q.
Proof.
  unfold store_u32.
  destruct (Z.leb_spec 0 off) as [H0|]; [|discriminate].
  destruct (Z.leb_spec (off + 4) (size mem)) as [H4|]; [|discriminate].
  simpl. intros [= <-] Hq. unfold load_u8, load_byte.
  destruct (Z.ltb_spec q 0); [reflexivity|].
  rewrite !list_lookup_insert_ne by lia. reflexivity.
Qed.

(** The stored word is read back byte by byte. *)
Lemma store_u32_bytes (mem mem' : buffer) (off w : Z) :
  store_u32 mem off w = Some mem' ->
  load_u8 mem' off = Some (w mod 256) /\
  load_u8 mem' (off + 1) = Some ((w / 256) mod 256) /\
  load_u8 mem' (off + 2) = Some ((w / 65536) mod 256) /\
  load_u8 mem' (off + 3) = Some ((w / 16777216) mod 256).
Proof.
  unfold store_u32.
  destruct (Z.leb_spec 0 off) as [H0|]; [|discriminate].
  destruct (Z.leb_spec (off + 4) (size mem)) as [H4|]; [|discriminate].
  simpl. intros [= <-]. unfold load_u8, load_byte, size in *.
  repeat match goal with
         | |- context [?x <? 0] => destruct (Z.ltb_spec x 0); [lia|]
         end.
  replace (Z.to_nat (off + 1)) with (S (Z.to_nat off)) by lia.
  replace (Z.to_nat (off + 2)) with (S (S (Z.to_nat off))) by lia.
  replace (Z.to_nat (off + 3)) with (S (S (S (Z.to_nat off)))) by lia.
  repeat split.
  - rewrite !list_lookup_insert_ne by lia.
    rewrite list_lookup_insert_eq by lia. simpl. rewrite byte_to_of_Z. reflexivity.
  - rewrite !list_lookup_insert_ne by lia.
    rewrite list_lookup_insert_eq by (rewrite ?length_insert; lia).
    simpl. rewrite byte_to_of_Z. reflexivity.
  - rewrite !list_lookup_insert_ne by lia.
    rewrite list_lookup_insert_eq by (rewrite ?length_insert; lia).
    simpl. rewrite byte_to_of_Z. reflexivity.
  - rewrite list_lookup_insert_eq by (rewrite ?length_insert; lia).
    simpl. rewrite byte_to_of_Z. reflexivity.
Qed.

Lemma word_split (w : Z) :
  0 <= w < 2 ^ 32 ->
  w mod 256 + 256 * ((w / 256) mod 256) + 65536 * ((w / 65536) mod 256)
  + 16777216 * ((w / 16777216) mod 256) = w.
Proof.
  intros Hw. change (2 ^ 32) with 4294967296 in Hw.
  Z.to_euclidean_division_equations. lia.
Qed.

Lemma load_store_u32 (mem mem' : buffer) (off w : Z) :
  store_u32 mem off w = Some mem' ->
  0 <= w < 2 ^ 32 ->
  load_u32 mem' off = Some w.
Proof.
  intros Hst Hw. destruct (store_u32_bytes _ _ _ _ Hst) as (E0 & E1 & E2 & E3).
  unfold load_u32. rewrite E0, E1, E2, E3. simpl.
  rewrite word_split by assumption. reflexivity.
Qed.

(** The two halves of a word, as the [uint16_t] fields read them. *)
Lemma load_u16_of_u32 (mem : buffer) (off w : Z) :
  load_u32 mem off = Some w ->
  load_u16 mem off = Some (w mod 65536) /\
  load_u16 mem (off + 2) = Some (w / 65536).
Proof.
  unfold load_u32, load_u16. intros H.
  replace (off + 2 + 1) with (off + 3) by lia.
  destruct (load_u8 mem off) as [b0|] eqn:E0; simpl in H; [|discriminate].
  destruct (load_u8 mem (off + 1)) as [b1|] eqn:E1; simpl in H; [|discriminate].
  destruct (load_u8 mem (off + 2)) as [b2|] eqn:E2; simpl in H; [|discriminate].
  destruct (load_u8 mem (off + 3)) as [b3|] eqn:E3; simpl in H; [|discriminate].
  injection H as <-. simpl.
  apply load_u8_Some in E0, E1, E2, E3.
  split; f_equal; Z.to_euclidean_division_equations; lia.
Qed.

(** A word depends on its four bytes only. *)
Lemma load_u32_ext (m1 m2 : buffer) (q1 q2 : Z) :
  (forall t, 0 <= t < 4 -> load_u8 m1 (q1 + t) = load_u8 m2 (q2 + t)) ->
  load_u32 m1 q1 = load_u32 m2 q2.
Proof.
  intros H. unfold load_u32.
  pose proof (H 0 ltac:(lia)) as H0. rewrite !Z.add_0_r in H0.
  rewrite H0, (H 1), (H 2), (H 3) by lia. reflexivity.
Qed.

Lemma load_u16_ext (m1 m2 : buffer) (q1 q2 : Z) :
  (forall t, 0 <= t < 2 -> load_u8 m1 (q1 + t) = load_u8 m2 (q2 + t)) ->
  load_u16 m1 q1 = load_u16 m2 q2.
Proof.
  intros H. unfold load_u16.
  pose proof (H 0 ltac:(lia)) as H0. rewrite !Z.add_0_r in H0.
  rewrite H0, (H 1) by lia. reflexivity.
Qed.

(** ** The unmask loop *)

Section UnmaskLoop.
(** The header tail at [rh], the masked words from [p], the output from
    [d], [N] words in all; [mem0] is the memory before the call. *)
Variables (rh p d N key : Z) (mem0 : buffer).
Hypothesis Hp : 0 <= p.
Hypothesis Hd : 0 <= d.
Hypothesis Hsrc : p + 4 * N <= size mem0.
Hypothesis Hdst : d + 4 * N <= size mem0.
Hypothesis Hkey : load_u32 mem0 (rh + 4) = Some key.
(** The output is the masked header itself, or apart from it. *)
Hypothesis Halias : d = p \/ d + 4 * N <= p \/ p + 4 * N <= d.
(** The output does not cover the key. *)
Hypothesis Hapart : d + 4 * N <= rh + 4 \/ rh + 8 <= d.

Lemma unmask_loop_spec (k : nat) :
  forall (i : Z) (mem : buffer),
    0 <= i ->
    i + Z.of_nat k = N ->
    size mem = size mem0 ->
    (forall q, q < d \/ d + 4 * i <= q -> load_u8 mem q = load_u8 mem0 q) ->
    exists mem',
      unmask_loop k i rh p d mem = Some mem' /\
      size mem' = size mem0 /\
      (forall q, q < d + 4 * i \/ d + 4 * N <= q -> load_u8 mem' q = load_u8 mem q) /\
      (forall j, i <= j < N ->
                 exists w, load_u32 mem0 (p + 4 * j) = Some w /\
                           load_u32 mem' (d + 4 * j) = Some (Z.lxor w key)).
Proof.
  induction k as [|k IH]; intros i mem Hi HN Hsize Hinv.
  - exists mem. simpl. repeat split; try assumption; try reflexivity.
    intros j Hj. lia.
  - assert (Hkr := load_u32_Some _ _ _ Hkey).
    destruct (load_u32_in_bounds mem0 (p + 4 * i)) as [w Hw]; [lia..|].
    assert (Hwr := load_u32_Some _ _ _ Hw).
    assert (Hw' : load_u32 mem (p + 4 * i) = Some w).
    { rewrite <- Hw. apply load_u32_ext. intros t Ht. apply Hinv. lia. }
    assert (Hkey' : load_u32 mem (rh + 4) = Some key).
    { rewrite <- Hkey. apply load_u32_ext. intros t Ht. apply Hinv. lia. }
    destruct (store_u32_in_bounds mem (d + 4 * i) (Z.lxor w key)) as [mem1 Hst];
      [lia | lia |].
    simpl. unfold sizeof_uint32, offsetof_Key.
    rewrite Hw', Hkey'. simpl. rewrite Hst. simpl.
    destruct (IH (i + 1) mem1) as (mem' & Hrun & Hsz & Hframe & Hwords).
    + lia.
    + lia.
    + rewrite (store_u32_size _ _ _ _ Hst). assumption.
    + intros q Hq. rewrite (store_u32_other _ _ _ _ q Hst) by lia.
      apply Hinv. lia.
    + exists mem'. split; [assumption|]. split; [assumption|]. split.
      * intros q Hq. rewrite Hframe by lia.
        apply (store_u32_other _ _ _ _ q Hst). lia.
      * intros j Hj. destruct (Z.eq_dec j i) as [->|Hne].
        -- exists w. split; [assumption|].
           rewrite <- (load_store_u32 _ _ _ _ Hst) by (apply lxor_range; lia).
           apply load_u32_ext. intros t Ht. apply Hframe. lia.
        -- apply Hwords. lia.
Qed.
End UnmaskLoop.

(** What a call of rich_header_unmask leaves in memory: [n / 4] unmasked
    words at [d], everything else as before. *)
Lemma rich_header_unmask_spec (mem : buffer) (rh n d key : Z) :
  0 <= n -> n <= rh -> 0 <= d -> d + n <= size mem ->
  load_u32 mem (rh + 4) = Some key ->
  d = rh - n \/ d + n <= rh - n \/ rh + 8 <= d ->
  exists mem',
    rich_header_unmask mem rh n d = Some mem' /\
    size mem' = size mem /\
    (forall q, q < d \/ d + 4 * (n / 4) <= q -> load_u8 mem' q = load_u8 mem q) /\
    (forall j, 0 <= j < n / 4 ->
               exists w, load_u32 mem (rh - n + 4 * j) = Some w /\
                         load_u32 mem' (d + 4 * j) = Some (Z.lxor w key)).
Proof.
  intros Hn Hrh Hd Hdst Hkey Halias.
  assert (Hkr := load_u32_Some _ _ _ Hkey).
  assert (Hdiv : 0 <= n / 4 /\ 4 * (n / 4) <= n).
  { Z.to_euclidean_division_equations. lia. }
  unfold rich_header_unmask, sizeof_uint32.
  destruct (unmask_loop_spec rh (rh - n) d (n / 4) key mem) with
    (k := Z.to_nat (n / 4)) (i := 0) (mem := mem)
    as (mem' & Hrun & Hsz & Hframe & Hwords); try lia; try assumption.
  - reflexivity.
  - exists mem'. split; [assumption|]. split; [assumption|]. split.
    + intros q Hq. apply Hframe. lia.
    + assumption.
Qed.

Lemma rich_header_products_len_eq (n : Z) :
  16 <= n < 2 ^ 64 -> rich_header_products_len n = (n - 16) / 8.
Proof.
  intros Hn. unfold rich_header_products_len, size_t_wrap, sizeof_uint32, sizeof_product.
  rewrite Z.mod_small by lia. reflexivity.
Qed.

Lemma load_product_words (mem : buffer) (hdr j w0 w1 : Z) :
  load_u32 mem (hdr + 4 * (4 + 2 * j)) = Some w0 ->
  load_u32 mem (hdr + 4 * (5 + 2 * j)) = Some w1 ->
  load_product mem hdr j = Some (unpack w0 w1).
Proof.
  intros H0 H1. unfold load_product, offsetof_Products, sizeof_product.
  replace (hdr + 4 * (4 + 2 * j)) with (hdr + 16 + 8 * j) in H0 by lia.
  replace (hdr + 4 * (5 + 2 * j)) with (hdr + 16 + 8 * j + 4) in H1 by lia.
  destruct (load_u16_of_u32 _ _ _ H0) as [-> ->]. rewrite H1. reflexivity.
Qed.

Lemma products_of_words (mem : buffer) (hdr n : Z) (ws : Z -> Z) :
  16 <= n < 2 ^ 64 ->
  (n - 16) mod 8 = 0 ->
  (forall j, 0 <= j < n / 4 -> load_u32 mem (hdr + 4 * j) = Some (ws j)) ->
  products mem hdr n =
  Some ((fun j : nat => unpack (ws (4 + 2 * Z.of_nat j)) (ws (5 + 2 * Z.of_nat j)))
          <$> seq 0 (Z.to_nat ((n - 16) / 8))).
Proof.
  intros Hn Hmod Hws. unfold products.
  rewrite rich_header_products_len_eq by assumption.
  apply mapM_Some. apply Forall2_fmap_r, Forall_Forall2_diag, Forall_seq.
  intros j Hj. simpl.
  assert (Hlen : 2 * (Z.of_nat j) + 5 < n / 4).
  { Z.to_euclidean_division_equations. lia. }
  apply load_product_words; apply Hws; lia.
Qed.

(** ** rich_header_unmask: the claim *)

(** C7, as stated, fails. A span of one word before "Rich" is in bounds
    and its length is a positive multiple of 4, but the output has one
    word, not four padding words, and the product count wraps around. A
    span of five words leaves its fifth word outside every entry. A span
    that ends where the buffer ends has no key to unmask with. An output
    array one word further on than the span gets a second word that is
    not the second input word XOR the key. *)
Lemma C7_valid_span_counterexample :
  (0 < 4 /\ 4 mod 4 = 0 /\ 60 + 4 <= size dans_next_to_rich /\
   is_Some (rich_header_unmask dans_next_to_rich 64 4 60) /\
   4 / 4 < 4 /\
   rich_header_products_len 4 = 2305843009213693950) /\
  (0 < 20 /\ 20 mod 4 = 0 /\ 44 + 20 <= size minimal_header /\
   is_Some (rich_header_unmask minimal_header 64 20 44) /\
   20 / 4 <> 4 + 2 * rich_header_products_len 20) /\
  (0 < 16 /\ 16 mod 4 = 0 /\ 0 + 16 <= size (zeros 16) /\
   rich_header_unmask (zeros 16) 16 16 0 = None) /\
  (0 < 24 /\ 24 mod 4 = 0 /\ 64 + 24 <= size scenario /\
   exists mem', rich_header_unmask scenario 88 24 68 = Some mem' /\
                load_u32 mem' (68 + 4 * 1)
                <> Some (Z.lxor (word_at scenario 64 1) key1)).
Proof.
  split; [|split; [|split]].
  - split; [lia|]. split; [reflexivity|]. split; [vm_compute; discriminate|].
    split; [vm_compute; eauto|]. split; [vm_compute; reflexivity|].
    vm_compute. reflexivity.
  - split; [lia|]. split; [reflexivity|]. split; [vm_compute; discriminate|].
    split; [vm_compute; eauto|]. vm_compute. discriminate.
  - split; [lia|]. split; [reflexivity|]. split; [vm_compute; discriminate|].
    vm_compute. reflexivity.
  - split; [lia|]. split; [reflexivity|]. split; [vm_compute; discriminate|].
    eexists. split; [vm_compute; reflexivity|]. vm_compute. discriminate.
Qed.

(** C7, amended: for a span of [n] bytes before the tail at [rh], with
    [n] at least 16 and [n - 16] a multiple of 8, the tail with its key
    inside the buffer, and the output written over the span itself or
    apart from the span and the key, the call writes [n / 4] words, each
    the masked word XOR the key; the words after the first four are
    [(n - 16) / 8] product entries in their order in the file, build
    number in the low half of an entry's first word, product id in its
    high half, object count in its second word; no other byte changes. *)
Theorem C7_unmask (mem : buffer) (rh n d key : Z) :
  16 <= n < 2 ^ 64 ->
  (n - 16) mod 8 = 0 ->
  n <= rh ->
  0 <= d -> d + n <= size mem ->
  load_u32 mem (rh + 4) = Some key ->
  d = rh - n \/ d + n <= rh - n \/ rh + 8 <= d ->
  exists mem',
    rich_header_unmask mem rh n d = Some mem' /\
    (forall j, 0 <= j < n / 4 ->
       load_u32 mem' (d + 4 * j) = Some (Z.lxor (word_at mem (rh - n) j) key)) /\
    rich_header_products_len n = (n - 16) / 8 /\
    products mem' d n =
      Some ((fun j : nat =>
               unpack (Z.lxor (word_at mem (rh - n) (4 + 2 * Z.of_nat j)) key)
                      (Z.lxor (word_at mem (rh - n) (5 + 2 * Z.of_nat j)) key))
              <$> seq 0 (Z.to_nat ((n - 16) / 8))) /\
    (forall q, q < d \/ d + n <= q -> load_u8 mem' q = load_u8 mem q).
Proof.
  intros Hn Hmod Hrh Hd Hdst Hkey Halias.
  destruct (rich_header_unmask_spec mem rh n d key)
    as (mem' & Hrun & Hsz & Hframe & Hwords); try lia; try assumption.
  assert (Hw : forall j, 0 <= j < n / 4 ->
             load_u32 mem' (d + 4 * j) = Some (Z.lxor (word_at mem (rh - n) j) key)).
  { intros j Hj. destruct (Hwords j Hj) as (w & Hw0 & Hw1).
    unfold word_at. rewrite Hw0. exact Hw1. }
  exists mem'. split; [assumption|]. split; [assumption|].
  split; [apply rich_header_products_len_eq; assumption|]. split.
  - apply (products_of_words mem' d n
             (fun j => Z.lxor (word_at mem (rh - n) j) key)); assumption.
  - intros q Hq. apply Hframe.
    assert (4 * (n / 4) = n) by (Z.to_euclidean_division_equations; lia). lia.
Qed.

Lemma C7_unmask_witness :
  exists mem',
    rich_header_unmask scenario 88 24 64 = Some mem' /\
    (forall j, 0 <= j < 24 / 4 ->
       load_u32 mem' (64 + 4 * j) = Some (Z.lxor (word_at scenario (88 - 24) j) key1)) /\
    rich_header_products_len 24 = (24 - 16) / 8 /\
    products mem' 64 24 =
      Some ((fun j : nat =>
               unpack (Z.lxor (word_at scenario (88 - 24) (4 + 2 * Z.of_nat j)) key1)
                      (Z.lxor (word_at scenario (88 - 24) (5 + 2 * Z.of_nat j)) key1))
              <$> seq 0 (Z.to_nat ((24 - 16) / 8))) /\
    (forall q, q < 64 \/ 64 + 24 <= q -> load_u8 mem' q = load_u8 scenario q).
Proof.
  apply (C7_unmask scenario 88 24 64 key1).
  - lia.
  - reflexivity.
  - lia.
  - lia.
  - vm_compute. discriminate.
  - reflexivity.
  - left. reflexivity.
Defined.

(** ** Loads from a concatenation *)

Lemma load_u8_app_l (a b : buffer) (q : Z) :
  q < size a -> load_u8 (a ++ b) q = load_u8 a q.
Proof.
  intros Hq. unfold load_u8, load_byte, size in *.
  destruct (Z.ltb_spec q 0); [reflexivity|].
  rewrite lookup_app_l by lia. reflexivity.
Qed.

Lemma load_u8_app_r (a b : buffer) (q : Z) :
  size a <= q -> load_u8 (a ++ b) q = load_u8 b (q - size a).
Proof.
  intros Hq. unfold load_u8, load_byte, size in *.
  destruct (Z.ltb_spec q 0); [lia|].
  destruct (Z.ltb_spec (q - Z.of_nat (length a)) 0); [lia|].
  rewrite lookup_app_r by lia. do 2 f_equal. lia.
Qed.

Lemma load_u32_app_l (a b : buffer) (q : Z) :
  q + 4 <= size a -> load_u32 (a ++ b) q = load_u32 a q.
Proof.
  intros Hq. apply load_u32_ext. intros t Ht. apply load_u8_app_l. lia.
Qed.

Lemma load_u32_app_r (a b : buffer) (q : Z) :
  size a <= q -> load_u32 (a ++ b) q = load_u32 b (q - size a).
Proof.
  intros Hq. apply load_u32_ext. intros t Ht.
  rewrite load_u8_app_r by lia. f_equal. lia.
Qed.

Lemma size_app (a b : buffer) : size (a ++ b) = size a + size b.
Proof. unfold size. rewrite length_app. lia. Qed.

Lemma size_word_bytes (w : Z) : size (word_bytes w) = 4.
Proof. reflexivity. Qed.

Lemma load_word_bytes (w : Z) (rest : buffer) :
  0 <= w < 2 ^ 32 -> load_u32 (word_bytes w ++ rest) 0 = Some w.
Proof.
  intros Hw. unfold load_u32, load_u8, load_byte, word_bytes. simpl.
  rewrite !byte_to_of_Z. rewrite word_split by assumption. reflexivity.
Qed.

Lemma size_flat_map_word_bytes (ws : list Z) :
  size (flat_map word_bytes ws) = 4 * Z.of_nat (length ws).
Proof.
  induction ws as [|w ws IH]; [reflexivity|].
  change (flat_map word_bytes (w :: ws)) with (word_bytes w ++ flat_map word_bytes ws).
  rewrite size_app, IH, size_word_bytes. simpl length. lia.
Qed.

(** Word [i] of a run of encoded words. *)
Lemma load_flat_map_word_bytes (ws : list Z) (rest : buffer) :
  Forall (fun w => 0 <= w < 2 ^ 32) ws ->
  forall (i : nat) (w : Z),
    ws !! i = Some w ->
    load_u32 (flat_map word_bytes ws ++ rest) (4 * Z.of_nat i) = Some w.
Proof.
  induction 1 as [|w0 ws Hw0 Hws IH]; intros i w Hi; [discriminate|].
  change (flat_map word_bytes (w0 :: ws)) with (word_bytes w0 ++ flat_map word_bytes ws).
  rewrite <- app_assoc.
  destruct i as [|i].
  - injection Hi as <-. apply load_word_bytes. assumption.
  - rewrite load_u32_app_r by (rewrite size_word_bytes; lia).
    rewrite size_word_bytes.
    replace (4 * Z.of_nat (S i) - 4) with (4 * Z.of_nat i) by lia.
    apply IH. exact Hi.
Qed.

(** ** The words of a header *)

Lemma lxor_lxor_key (w key : Z) : Z.lxor (Z.lxor w key) key = w.
Proof. rewrite Z.lxor_assoc, Z.lxor_nilpotent, Z.lxor_0_r. reflexivity. Qed.

Lemma unpack_product_word (e : IMAGE_MASKED_RICH_HEADER_PRODUCT) :
  product_ok e -> unpack (product_word e) (ObjectCount e) = e.
Proof.
  destruct e as [b pid c]. unfold product_ok, unpack, product_word. simpl.
  intros (Hb & Hp & _). change (2 ^ 16) with 65536 in *.
  f_equal; Z.to_euclidean_division_equations; lia.
Qed.

Lemma product_word_range (e : IMAGE_MASKED_RICH_HEADER_PRODUCT) :
  product_ok e -> 0 <= product_word e < 2 ^ 32.
Proof.
  unfold product_ok, product_word. change (2 ^ 16) with 65536.
  change (2 ^ 32) with 4294967296. lia.
Qed.

(** The two words of entry [j] in the flattened list. *)
Lemma lookup_flat_pairs {A} (f g : A -> Z) (l : list A) :
  forall (j : nat) (e : A),
    l !! j = Some e ->
    flat_map (fun e => [f e; g e]) l !! (2 * j)%nat = Some (f e) /\
    flat_map (fun e => [f e; g e]) l !! S (2 * j) = Some (g e).
Proof.
  induction l as [|a l IH]; intros j e Hj; [discriminate|].
  destruct j as [|j].
  - injection Hj as <-. split; reflexivity.
  - replace (2 * S j)%nat with (S (S (2 * j))) by lia. simpl. apply IH. exact Hj.
Qed.

Lemma length_flat_pairs {A} (f g : A -> Z) (l : list A) :
  length (flat_map (fun e => [f e; g e]) l) = (2 * length l)%nat.
Proof. induction l as [|a l IH]; simpl; lia. Qed.

Lemma length_plain_words (prods : list IMAGE_MASKED_RICH_HEADER_PRODUCT) :
  length (plain_words prods) = (4 + 2 * length prods)%nat.
Proof. unfold plain_words. simpl. rewrite length_flat_pairs. lia. Qed.

Lemma plain_words_range (prods : list IMAGE_MASKED_RICH_HEADER_PRODUCT) :
  Forall product_ok prods ->
  Forall (fun w => 0 <= w < 2 ^ 32) (plain_words prods).
Proof.
  intros Hok. unfold plain_words.
  repeat (constructor; [rewrite ?DanS_value; lia|]).
  induction Hok as [|e l He Hl IH]; [constructor|].
  simpl. constructor; [apply product_word_range; assumption|].
  constructor; [apply He | assumption].
Qed.

(** Past the signature word, a plain word is "DanS" only if a product
    field is. *)
Lemma plain_words_not_dans (prods : list IMAGE_MASKED_RICH_HEADER_PRODUCT) :
  Forall (fun e => product_word e <> DanS /\ ObjectCount e <> DanS) prods ->
  forall (i : nat) (w : Z),
    (0 < i)%nat -> plain_words prods !! i = Some w -> w <> DanS.
Proof.
  intros Hno i w Hi Hw. unfold plain_words in Hw.
  destruct i as [|[|[|[|i]]]]; try lia;
    try (injection Hw as <-; rewrite DanS_value; lia).
  simpl in Hw. clear Hi. revert i Hw.
  induction Hno as [|e l [He1 He2] Hl IH]; intros i Hw; [discriminate|].
  destruct i as [|[|i]]; simpl in Hw.
  - injection Hw as <-. assumption.
  - injection Hw as <-. assumption.
  - eapply IH. exact Hw.
Qed.

(** ** Locating an assembled header *)

Section Assembled.
Variables (pad : buffer) (key : Z) (prods : list IMAGE_MASKED_RICH_HEADER_PRODUCT).
Hypothesis Hpad64 : 64 <= size pad.
Hypothesis Hpad4 : size pad mod 4 = 0.
(** No "Rich" in the padding at an offset the scan tests. *)
Hypothesis Hpad_rich :
  forall q, 64 <= q -> q mod 4 = 0 -> q + 4 <= size pad ->
            load_u32 pad q <> Some Rich.
Hypothesis Hkey : 0 <= key < 2 ^ 32.
Hypothesis Hok : Forall product_ok prods.
(** No masked word of the header reads "Rich". *)
Hypothesis Hmasked : Forall (fun w => w <> Rich) (header_words key prods).
(** No product field reads "DanS". *)
Hypothesis Hplain :
  Forall (fun e => product_word e <> DanS /\ ObjectCount e <> DanS) prods.

Lemma assembled_L : header_len key prods = 4 + 2 * Z.of_nat (length prods).
Proof.
  unfold header_len, header_words. rewrite length_fmap, length_plain_words. lia.
Qed.

Lemma header_words_range :
  Forall (fun w => 0 <= w < 2 ^ 32) (header_words key prods).
Proof.
  unfold header_words. apply Forall_fmap.
  eapply Forall_impl; [apply plain_words_range; exact Hok|].
  simpl. intros w Hw. apply lxor_range; assumption.
Qed.

Lemma assembled_size :
  size (assemble pad key prods) = tail_offset pad key prods + 8.
Proof.
  unfold assemble, tail_offset, header_len.
  rewrite !size_app, size_flat_map_word_bytes, size_word_bytes.
  change (size rich_header_signature) with 4. lia.
Qed.

Lemma assembled_pad (q : Z) :
  q + 4 <= size pad -> load_u32 (assemble pad key prods) q = load_u32 pad q.
Proof. intros Hq. unfold assemble. apply load_u32_app_l. assumption. Qed.

Lemma assembled_word (i : nat) (w : Z) :
  header_words key prods !! i = Some w ->
  load_u32 (assemble pad key prods) (size pad + 4 * Z.of_nat i) = Some w.
Proof.
  intros Hi. unfold assemble.
  rewrite load_u32_app_r by lia.
  replace (size pad + 4 * Z.of_nat i - size pad) with (4 * Z.of_nat i) by lia.
  apply load_flat_map_word_bytes; [apply header_words_range | exact Hi].
Qed.

Lemma assembled_rich :
  load_u32 (assemble pad key prods) (tail_offset pad key prods) = Some Rich.
Proof.
  unfold assemble, tail_offset, header_len.
  rewrite load_u32_app_r by lia.
  rewrite load_u32_app_r by (rewrite size_flat_map_word_bytes; lia).
  rewrite size_flat_map_word_bytes.
  match goal with |- load_u32 _ ?q = _ => replace q with 0 by lia end.
  reflexivity.
Qed.

Lemma assembled_key :
  load_u32 (assemble pad key prods) (tail_offset pad key prods + 4) = Some key.
Proof.
  unfold assemble, tail_offset, header_len.
  rewrite load_u32_app_r by lia.
  rewrite load_u32_app_r by (rewrite size_flat_map_word_bytes; lia).
  rewrite size_flat_map_word_bytes.
  rewrite (load_u32_app_r rich_header_signature)
    by (change (size rich_header_signature) with 4; lia).
  change (size rich_header_signature) with 4.
  match goal with |- load_u32 _ ?q = _ => replace q with 0 by lia end.
  rewrite <- (app_nil_r (word_bytes key)). apply load_word_bytes. exact Hkey.
Qed.

(** An offset of the header, as a word index. *)
Lemma assembled_index (q : Z) :
  size pad <= q < tail_offset pad key prods -> (q - size pad) mod 4 = 0 ->
  exists (i : nat) (w : Z),
    q = size pad + 4 * Z.of_nat i /\
    header_words key prods !! i = Some w.
Proof.
  intros Hq Hmod.
  assert (Hi : (Z.to_nat ((q - size pad) / 4) < length (header_words key prods))%nat).
  { unfold tail_offset, header_len in Hq. Z.to_euclidean_division_equations. lia. }
  destruct (lookup_lt_is_Some_2 _ _ Hi) as [w Hw].
  exists (Z.to_nat ((q - size pad) / 4)), w. split; [|exact Hw].
  Z.to_euclidean_division_equations. lia.
Qed.

Lemma assembled_first_rich :
  first_rich (assemble pad key prods) (tail_offset pad key prods).
Proof.
  assert (HL := assembled_L).
  split; [|split].
  - unfold scanned. rewrite assembled_size. unfold tail_offset.
    split; [lia|]. split; [|lia].
    Z.to_euclidean_division_equations. lia.
  - exact assembled_rich.
  - intros q (H64 & Hmod & Hlt) Hqm. unfold is_rich.
    assert (Hq4 : q mod 4 = 0) by (Z.to_euclidean_division_equations; lia).
    destruct (Z_lt_le_dec q (size pad)) as [Hin|Hout].
    + rewrite assembled_pad by (Z.to_euclidean_division_equations; lia).
      apply Hpad_rich; [assumption | assumption |].
      Z.to_euclidean_division_equations. lia.
    + destruct (assembled_index q) as (i & w & -> & Hw); [lia | |].
      { Z.to_euclidean_division_equations. lia. }
      rewrite (assembled_word _ _ Hw). intros [= ->].
      rewrite Forall_lookup in Hmasked. exact (Hmasked i Rich Hw eq_refl).
Qed.

Lemma assembled_header_start :
  header_start (assemble pad key prods) key (tail_offset pad key prods) (size pad).
Proof.
  assert (HL := assembled_L).
  split; [|split].
  - unfold tail_offset. split; [lia|].
    replace (size pad + 4 * header_len key prods - size pad)
      with (header_len key prods * 4) by lia.
    apply Z.mod_mul. lia.
  - exists (Z.lxor DanS key). split; [|apply lxor_lxor_key].
    pose proof (assembled_word 0%nat (Z.lxor DanS key) eq_refl) as H0.
    change (4 * Z.of_nat 0) with 0 in H0. rewrite Z.add_0_r in H0. exact H0.
  - intros q (Hq & Hmod) Hlt (w & Hw & Hx).
    destruct (Z.eq_dec q (tail_offset pad key prods)) as [->|Hne].
    + rewrite assembled_rich in Hw. injection Hw as <-.
      rewrite Forall_lookup in Hmasked.
      apply (Hmasked 0%nat (Z.lxor DanS key) eq_refl).
      rewrite <- Hx. rewrite lxor_lxor_key. reflexivity.
    + destruct (assembled_index q) as (i & w' & -> & Hw'); [lia | |].
      { unfold tail_offset in Hmod. Z.to_euclidean_division_equations. lia. }
      rewrite (assembled_word _ _ Hw') in Hw. injection Hw as ->.
      unfold header_words in Hw'. rewrite list_lookup_fmap in Hw'.
      destruct (plain_words prods !! i) as [pw|] eqn:Hpw; [|discriminate].
      injection Hw' as <-. rewrite lxor_lxor_key in Hx.
      apply (plain_words_not_dans prods Hplain i pw); [lia | assumption | assumption].
Qed.
End Assembled.

(** ** Round trip *)

(** The entries read back from the plain words are the products. *)
Lemma unpack_plain_words (prods : list IMAGE_MASKED_RICH_HEADER_PRODUCT) :
  Forall product_ok prods ->
  (fun j : nat =>
     unpack (default 0 (plain_words prods !! Z.to_nat (4 + 2 * Z.of_nat j)))
            (default 0 (plain_words prods !! Z.to_nat (5 + 2 * Z.of_nat j))))
    <$> seq 0 (length prods) = prods.
Proof.
  intros Hok. apply list_eq. intros j.
  rewrite list_lookup_fmap.
  destruct (prods !! j) as [e|] eqn:He.
  - rewrite lookup_seq_lt by (eapply lookup_lt_Some; eassumption). simpl.
    destruct (lookup_flat_pairs product_word ObjectCount prods j e He) as [H0 H1].
    replace (Z.to_nat (4 + 2 * Z.of_nat j)) with (4 + 2 * j)%nat by lia.
    replace (Z.to_nat (5 + 2 * Z.of_nat j)) with (4 + S (2 * j))%nat by lia.
    change (plain_words prods !! (4 + 2 * j)%nat) with
      (flat_map (fun e => [product_word e; ObjectCount e]) prods !! (2 * j)%nat).
    change (plain_words prods !! (4 + S (2 * j))%nat) with
      (flat_map (fun e => [product_word e; ObjectCount e]) prods !! S (2 * j)).
    rewrite H0, H1. simpl. f_equal. apply unpack_product_word.
    rewrite Forall_lookup in Hok. exact (Hok j e He).
  - rewrite lookup_seq_ge by (eapply lookup_ge_None; eassumption). reflexivity.
Qed.

(** C2, as stated, fails, in four ways: with 65 bytes of padding the tail
    is at an offset the scan does not test; with "Rich" in the padding
    the scan stops there; with "Rich" as the key the first masked zero
    word reads "Rich" and is taken for the tail; with a product field that
    reads "DanS" the backward scan stops at that field. *)
Lemma C2_round_trip_counterexample :
  ~ round_trip (assemble (zeros 65) key1 [utc1600_c]) st0 key1 [utc1600_c] /\
  ~ round_trip (assemble pad_with_rich key1 [utc1600_c]) st0 key1 [utc1600_c] /\
  ~ round_trip (assemble (zeros 64) Rich [utc1600_c]) st0 Rich [utc1600_c] /\
  ~ round_trip (assemble (zeros 64) key1 [dans_count]) st0 key1 [dans_count].
Proof.
  assert (Hneg : forall data key prods v,
             result (rich_header_from_data data) st0 = Value v -> v < 0 ->
             ~ round_trip data st0 key prods).
  { intros data key prods v Hv Hlt (n & mem' & Hn & Hpos & _).
    rewrite Hv in Hn. injection Hn as <-. lia. }
  assert (Hshort : forall data key e,
             result (rich_header_from_data data) st0 = Value 4 ->
             ~ round_trip data st0 key [e]).
  { intros data key e Hv (n & mem' & Hn & _ & _ & _ & Hprods).
    rewrite Hv in Hn. injection Hn as <-.
    unfold products in Hprods. apply length_mapM in Hprods.
    rewrite length_seq in Hprods.
    assert (Hlen : rich_header_products_len 4 = 2305843009213693950)
      by (vm_compute; reflexivity).
    rewrite Hlen in Hprods. simpl length in Hprods. lia. }
  split; [|split; [|split]].
  - apply (Hneg _ _ _ (-1)); [vm_compute; reflexivity | lia].
  - apply (Hneg _ _ _ (-2)); [vm_compute; reflexivity | lia].
  - apply Hshort. vm_compute. reflexivity.
  - apply Hshort. vm_compute. reflexivity.
Qed.

(** C2, amended: for a buffer assembled as padding, masked "DanS", three
    masked zero words, the masked product words, "Rich" and the key,
    where the padding is at least 64 bytes and a multiple of 4 long and
    holds no "Rich" at an offset the scan tests, no masked word of the
    header reads "Rich", no product field reads "DanS" and every field
    fits its C type, locating returns the header length [16 + 8 * N] with
    the caller's pointer at the tail, and unmasking in place then reading
    the products gives the original key and the original entries, in
    their order. *)
Theorem C2_round_trip (pad : buffer) (key : Z)
  (prods : list IMAGE_MASKED_RICH_HEADER_PRODUCT) (st : state) :
  64 <= size pad ->
  size pad mod 4 = 0 ->
  (forall q, 64 <= q -> q mod 4 = 0 -> q + 4 <= size pad ->
             load_u32 pad q <> Some Rich) ->
  0 <= key < 2 ^ 32 ->
  Forall product_ok prods ->
  16 + 8 * Z.of_nat (length prods) < 2 ^ 64 ->
  Forall (fun w => w <> Rich) (header_words key prods) ->
  Forall (fun e => product_word e <> DanS /\ ObjectCount e <> DanS) prods ->
  let data := assemble pad key prods in
  result (rich_header_from_data data) st
  = Value (16 + 8 * Z.of_nat (length prods)) /\
  rhdr (final (rich_header_from_data data) st)
  = size pad + 16 + 8 * Z.of_nat (length prods) /\
  round_trip data st key prods.
Proof.
  intros Hpad64 Hpad4 Hpad_rich Hkey Hok Hlen Hmasked Hplain data.
  set (N := Z.of_nat (length prods)) in *.
  pose proof (assembled_L key prods) as HL. fold N in HL.
  set (L := header_len key prods) in *.
  pose proof (assembled_first_rich pad key prods Hpad64 Hpad4 Hpad_rich Hkey Hok Hmasked)
    as Hfirst.
  pose proof (assembled_key pad key prods Hkey) as Hk.
  pose proof (assembled_header_start pad key prods Hpad64 Hkey Hok Hmasked Hplain)
    as Hstart.
  pose proof (assembled_size pad key prods) as Hsize.
  unfold tail_offset in Hfirst, Hk, Hstart, Hsize.
  fold data L in Hfirst, Hk, Hstart, Hsize.
  pose proof (located_found data st _ _ _ Hfirst Hk Hstart) as Hres.
  pose proof (found_rhdr data st _ Hfirst) as Hrh.
  replace (size pad + 4 * L - size pad) with (16 + 8 * N) in Hres by lia.
  replace (size pad + 4 * L) with (size pad + 16 + 8 * N) in Hrh by lia.
  split; [assumption|]. split; [assumption|].
  destruct (rich_header_unmask_spec data (size pad + 16 + 8 * N) (16 + 8 * N)
              (size pad) key)
    as (mem' & Hrun & _ & _ & Hwords); try lia.
  { replace (size pad + 16 + 8 * N + 4) with (size pad + 4 * L + 4) by lia.
    assumption. }
  exists (16 + 8 * N), mem'. split; [assumption|]. split; [lia|].
  simpl. rewrite Hrh. unfold offsetof_Key.
  replace (size pad + 16 + 8 * N - (16 + 8 * N)) with (size pad) in * by lia.
  split; [replace (size pad + 16 + 8 * N + 4) with (size pad + 4 * L + 4) by lia;
          assumption|].
  split; [assumption|].
  rewrite (products_of_words mem' (size pad) (16 + 8 * N)
             (fun j => default 0 (plain_words prods !! Z.to_nat j))).
  - replace (16 + 8 * N - 16) with (N * 8) by lia.
    rewrite Z.div_mul by lia. unfold N. rewrite Nat2Z.id.
    rewrite unpack_plain_words by assumption. reflexivity.
  - lia.
  - replace (16 + 8 * N - 16) with (N * 8) by lia. apply Z.mod_mul. lia.
  - intros j Hj.
    assert (HjL : j < L) by (Z.to_euclidean_division_equations; lia).
    destruct (Hwords j) as (w & Hw0 & Hw1); [lia|].
    rewrite Hw1. f_equal.
    assert (Hi : (Z.to_nat j < length (plain_words prods))%nat).
    { rewrite length_plain_words. lia. }
    destruct (lookup_lt_is_Some_2 _ _ Hi) as [pw Hpw]. rewrite Hpw. simpl.
    assert (Hhw : header_words key prods !! Z.to_nat j = Some (Z.lxor pw key)).
    { unfold header_words. rewrite list_lookup_fmap, Hpw. reflexivity. }
    pose proof (assembled_word pad key prods Hkey Hok (Z.to_nat j) _ Hhw) as Hload.
    fold data in Hload.
    replace (size pad + 4 * Z.of_nat (Z.to_nat j)) with (size pad + 4 * j) in Hload by lia.
    rewrite Hload in Hw0. injection Hw0 as <-. apply lxor_lxor_key.
Qed.

Lemma C2_round_trip_witness :
  result (rich_header_from_data scenario) st0 = Value 24 /\
  rhdr (final (rich_header_from_data scenario) st0) = 88 /\
  round_trip scenario st0 key1 [utc1600_c].
Proof.
  apply (C2_round_trip (zeros 64) key1 [utc1600_c] st0).
  - vm_compute. discriminate.
  - reflexivity.
  - intros q H64 _ Hq. change (size (zeros 64)) with 64 in Hq. lia.
  - unfold key1. lia.
  - repeat constructor; simpl; lia.
  - simpl. lia.
  - repeat (constructor; [vm_compute; discriminate|]). constructor.
  - repeat (constructor; [split; vm_compute; discriminate|]). constructor.
Defined.


(** Decoding the scenario gives build number 0x1234, product id 0x00aa
    and object count 7. *)
Lemma scenario_products :
  exists mem',
    rich_header_unmask scenario 88 24 64 = Some mem' /\
    products mem' 64 24 = Some [mkProduct 0x1234 0x00aa 7].
Proof. eexists. split; vm_compute; reflexivity. Qed.

(** ** The classifiers: every product id has an answer *)

Lemma holds_from_spec (f : Z -> bool) (n : nat) :
  forall i, holds_from f n i = true ->
            forall k, i <= k < i + Z.of_nat n -> f k = true.
Proof.
  induction n as [|n IH]; intros i H k Hk; [lia|].
  simpl in H. apply andb_true_iff in H as [Hi Hrest].
  destruct (Z.eq_dec k i) as [->|Hne]; [assumption|].
  apply (IH (i + 1)); [assumption | lia].
Qed.

Lemma has_name_b_spec (product_id : Z) :
  has_name_b product_id = true <-> has_name product_id.
Proof.
  unfold has_name_b, has_name.
  rewrite andb_true_iff, !Z.leb_le. reflexivity.
Qed.

Lemma has_release_b_spec (product_id : Z) :
  has_release_b product_id = true <-> has_release product_id.
Proof.
  unfold has_release_b, has_release.
  rewrite !orb_true_iff, !andb_true_iff, !Z.leb_le, !Z.eqb_eq. tauto.
Qed.

Lemma classified_all : holds_from classified_b (Z.to_nat 0x10000) 0 = true.
Proof. vm_compute. reflexivity. Qed.

(** C9: for every product id in [0, 0xFFFF] both classifiers return a
    string, which is the empty string exactly when the id is unknown: for
    the name, when the id has no [case]; for the release, when the id is
    in none of the ranges. *)
Theorem C9_classifier_total (product_id : Z) :
  0 <= product_id <= 0xFFFF ->
  exists name release : string,
    rich_header_productid_to_cstr product_id = name /\
    rich_header_productid_to_vsver_cstr product_id = release /\
    (name = EmptyString <-> ~ has_name product_id) /\
    (release = EmptyString <-> ~ has_release product_id).
Proof.
  intros Hid.
  pose proof (holds_from_spec _ _ _ classified_all product_id) as H.
  assert (Hc : classified_b product_id = true) by (apply H; lia). clear H.
  unfold classified_b in Hc. apply andb_true_iff in Hc as [Hn Hr].
  apply Bool.eqb_prop in Hn, Hr.
  eexists _, _. split; [reflexivity|]. split; [reflexivity|].
  rewrite <- has_name_b_spec, <- has_release_b_spec.
  rewrite <- !String.eqb_eq, Hn, Hr, !negb_true_iff, !not_true_iff_false.
  split; reflexivity.
Qed.

Lemma C9_classifier_total_witness :
  exists name release : string,
    rich_header_productid_to_cstr 0x00aa = name /\
    rich_header_productid_to_vsver_cstr 0x00aa = release /\
    (name = EmptyString <-> ~ has_name 0x00aa) /\
    (release = EmptyString <-> ~ has_release 0x00aa).
Proof.
  apply (C9_classifier_total 0x00aa). lia.
Defined.

(** The classification of the scenario's product id. *)
Lemma classify_utc1600_c :
  rich_header_productid_to_cstr 0x00aa = "Utc1600_C"%string /\
  rich_header_productid_to_vsver_cstr 0x00aa = "Visual Studio 2010 10.00"%string.
Proof. split; reflexivity. Qed.

(** ** rich_header_from_data: what else the code shows *)

Lemma located_unrecoverable (data : buffer) (st : state) (m key : Z) :
  first_rich data m ->
  load_u32 data (m + 4) = Some key ->
  no_dans data key m ->
  result (rich_header_from_data data) st = Value (-2).
Proof.
  intros Hm Hkey Hnone.
  pose proof (found_rhdr data st m Hm) as Hr.
  destruct (located_cases _ _ _ _ (rich_header_from_data_located data st))
    as [(_ & _ & Hno) | (Hf & [(Hk & _) | (key' & Hk & Hcase)])];
    rewrite ?Hr in *.
  - exfalso. eapply first_rich_not_no_rich; eassumption.
  - congruence.
  - rewrite Hkey in Hk. injection Hk as <-.
    destruct Hcase as [(_ & Ho) | (s & (Hw & Hd & _) & _)]; [assumption|].
    exfalso. exact (Hnone s Hw Hd).
Qed.

(** X1: the call returns -1 exactly when no tested offset holds "Rich";
    it then leaves the caller's pointer alone. A buffer with "Rich" at a
    tested offset never gives -1, and one without never gives anything
    else. *)
Theorem from_data_not_found_exactly (data : buffer) (st : state) :
  (result (rich_header_from_data data) st = Value (-1) <-> no_rich data) /\
  (no_rich data -> rhdr (final (rich_header_from_data data) st) = rhdr st).
Proof.
  split.
  - apply not_found_iff.
  - intros Hno. apply not_found_rhdr. assumption.
Qed.

(** X2: the call reads outside the buffer exactly when the first "Rich"
    at a tested offset has fewer than 8 bytes from its start to the end
    of the buffer, so that its key is cut. *)
Theorem from_data_out_of_bounds_exactly (data : buffer) (st : state) :
  result (rich_header_from_data data) st = OutOfBounds <->
  exists m, first_rich data m /\ size data < m + 8.
Proof.
  rewrite key_outside_iff. split; intros (m & Hm & Hk); exists m; (split; [assumption|]).
  - destruct (Z_lt_le_dec (size data) (m + 8)) as [|Hin]; [assumption|].
    destruct (load_u32_in_bounds data (m + 4)) as [w Hw];
      [destruct Hm as ((? & _) & _); lia | lia | congruence].
  - apply load_u32_out. lia.
Qed.

(** X3: on a buffer whose size is a multiple of 4 the call never reads
    outside the buffer. *)
Theorem from_data_safe_on_word_sized (data : buffer) (st : state) :
  size data mod 4 = 0 ->
  result (rich_header_from_data data) st <> OutOfBounds.
Proof.
  intros Hsize Hoob. apply key_outside_iff in Hoob as (m & Hm & Hk).
  destruct Hm as ((H64 & Hmod & Hlt) & _).
  destruct (load_u32_in_bounds data (m + 4)) as [w Hw]; [lia | | congruence].
  Z.to_euclidean_division_equations. lia.
Qed.

Lemma from_data_safe_on_word_sized_witness :
  result (rich_header_from_data tail_only) st0 <> OutOfBounds.
Proof.
  apply (from_data_safe_on_word_sized tail_only st0). reflexivity.
Defined.

(** The forward scan loads at [p], [p + 4], ..., each with more than 4
    bytes left. *)
Lemma forward_scan_trace (fuel : nat) (data : buffer) :
  forall (p : Z) (st : state),
    exists new,
      loads (final (forward_scan fuel data p) st) = new ++ loads st /\
      Forall (fun q => stride p (size data - 4) q) new.
Proof.
  induction fuel as [|fuel IH]; intros p st.
  - exists []. split; [reflexivity | constructor].
  - unfold final in *. rewrite forward_scan_step.
    destruct (Z.ltb_spec (p + 4) (size data)) as [Hlt|Hge];
      [|exists []; split; [reflexivity | constructor]].
    assert (Hp : stride p (size data - 4) p).
    { split; [lia|]. rewrite Z.sub_diag. reflexivity. }
    destruct (load_u32 data p) as [w|];
      [|exists [p]; split; [reflexivity | constructor; [assumption | constructor]]].
    destruct (w =? Rich);
      [exists [p]; split; [reflexivity | constructor; [assumption | constructor]]|].
    destruct (IH (p + 4) (logged p st)) as (new & Hl & Hall).
    exists (new ++ [p]). split.
    + rewrite Hl. simpl. rewrite <- app_assoc. reflexivity.
    + apply Forall_app. split; [|constructor; [assumption | constructor]].
      eapply Forall_impl; [exact Hall|]. simpl. intros q [Hq Hmod].
      split; [lia|].
      replace (q - p) with ((q - (p + 4)) + 1 * 4) by lia.
      rewrite Z.mod_add by lia. assumption.
Qed.

(** The backward scan loads at the visited offsets and at the key. *)
Lemma backward_scan_trace (fuel : nat) (data : buffer) :
  forall (p : Z) (st : state),
    exists new,
      loads (final (backward_scan fuel data p) st) = new ++ loads st /\
      Forall (fun q => q = rhdr st + 4 \/ walked p q) new.
Proof.
  induction fuel as [|fuel IH]; intros p st.
  - exists []. split; [reflexivity | constructor].
  - unfold final in *. rewrite backward_scan_step.
    destruct (Z.leb_spec 0 p) as [H0|Hneg];
      [|exists []; split; [reflexivity | constructor]].
    assert (Hp : walked p p).
    { split; [lia|]. rewrite Z.sub_diag. reflexivity. }
    destruct (load_u32 data p) as [w|];
      [|exists [p]; split; [reflexivity | constructor; [right; assumption | constructor]]].
    assert (Htwo : Forall (fun q => q = rhdr st + 4 \/ walked p q) [rhdr st + 4; p]).
    { constructor; [left; reflexivity|]. constructor; [right; assumption | constructor]. }
    destruct (load_u32 data (rhdr st + 4)) as [key|];
      [|exists [rhdr st + 4; p]; split; [reflexivity | assumption]].
    destruct (Z.lxor w key =? DanS);
      [exists [rhdr st + 4; p]; split; [reflexivity | assumption]|].
    destruct (IH (p - 4) (logged (rhdr st + 4) (logged p st))) as (new & Hl & Hall).
    exists (new ++ [rhdr st + 4; p]). split.
    + rewrite Hl. simpl. rewrite <- app_assoc. reflexivity.
    + apply Forall_app. split; [|assumption].
      eapply Forall_impl; [exact Hall|]. simpl. intros q [Hq|Hq]; [left; assumption|].
      right. apply walked_up. assumption.
Qed.

(** X4: every load of a call is at a multiple of 4 from the start of the
    buffer, never before offset 0 and never starting past the end of the
    buffer; unless the call ends by reading the key outside the buffer,
    every load lies inside it. *)
Theorem from_data_loads (data : buffer) (st : state) :
  exists new,
    loads (final (rich_header_from_data data) st) = new ++ loads st /\
    Forall (fun q => 0 <= q < size data /\ q mod 4 = 0) new /\
    (result (rich_header_from_data data) st <> OutOfBounds ->
     Forall (fun q => q + 4 <= size data) new).
Proof.
  pose proof (rich_header_from_data_located data st) as Hloc.
  apply located_cases in Hloc.
  unfold result, final in *. rewrite rich_header_from_data_unfold in *.
  destruct (forward_scan_trace (S (length data)) data 64 st) as (fw & Hfw & Hfwall).
  destruct (forward_scan_spec (S (length data)) data 64 st)
    as (fw' & Hfw' & _ & Hcase); [lia | unfold size; lia | lia |].
  unfold result, final in *.
  destruct (forward_scan (S (length data)) data 64 st) as [o st1].
  cbn [fst snd] in *.
  assert (Hfwd : Forall (fun q => (0 <= q < size data /\ q mod 4 = 0) /\
                                  q + 4 <= size data) fw).
  { eapply Forall_impl; [exact Hfwall|]. cbn beta. intros q [Hq Hmod].
    Z.to_euclidean_division_equations. lia. }
  apply Forall_and in Hfwd as [Hfwd1 Hfwd2].
  destruct Hcase as [(-> & _ & _) | (m & -> & Hrh & H64 & Hmod & Hm & Hrich & _)].
  - exists fw. cbn [fst snd]. auto.
  - destruct (backward_scan_trace (S (length data)) data (rhdr st1) st1)
      as (bw & Hbw & Hbwall).
    unfold final in Hbw.
    destruct (backward_scan_loads (S (length data)) data (rhdr st1) st1)
      as (_ & _ & Hrh2).
    unfold final in Hrh2.
    destruct (backward_scan (S (length data)) data (rhdr st1) st1) as [o2 st2].
    cbn [fst snd] in *. rewrite Hrh2, Hrh in *.
    exists (bw ++ fw). split; [rewrite Hbw, Hfw, app_assoc; reflexivity|].
    split.
    + apply Forall_app. split; [|assumption].
      eapply Forall_impl; [exact Hbwall|]. cbn beta.
      intros q [-> | [Hq Hqm]]; Z.to_euclidean_division_equations; lia.
    + intros Hsafe. apply Forall_app. split; [|assumption].
      assert (Hkey : m + 8 <= size data).
      { destruct Hloc as [(_ & _ & Hno) | (_ & [(_ & Ho) | (key & Hk & _)])].
        - exfalso. apply (Hno m); [|assumption].
          split; [lia|]. split; [assumption | lia].
        - contradiction.
        - apply load_u32_Some in Hk. lia. }
      eapply Forall_impl; [exact Hbwall|]. cbn beta.
      intros q [-> | [Hq Hqm]]; lia.
Qed.

(** X5: the caller's pointer is written before it is read: the value it
    holds before the call, and what was loaded earlier, change neither the
    result nor, when a marker is found, where the pointer is left. *)
Theorem from_data_ignores_initial_state (data : buffer) (st1 st2 : state) :
  result (rich_header_from_data data) st1
  = result (rich_header_from_data data) st2 /\
  (result (rich_header_from_data data) st1 <> Value (-1) ->
   rhdr (final (rich_header_from_data data) st1)
   = rhdr (final (rich_header_from_data data) st2)).
Proof.
  destruct (located_cases _ _ _ _ (rich_header_from_data_located data st1))
    as [(Ho & _ & Hno) | (Hf & Hcase)].
  - rewrite Ho. split; [|congruence].
    symmetry. apply not_found_iff. assumption.
  - split.
    + destruct Hcase as [(Hk & Ho) | (key & Hk & [(Hnone & Ho) | (s & Hs & Ho)])];
        rewrite Ho; symmetry.
      * apply key_outside_iff. eauto.
      * eapply located_unrecoverable; eassumption.
      * eapply located_found; eassumption.
    + intros _. symmetry. apply found_rhdr. assumption.
Qed.

(** X6: the backward scan starts at the "Rich" word itself, so a found
    header has length 0 exactly when its key is "Rich" XOR "DanS". *)
Theorem from_data_zero_length (data : buffer) (st : state) (m key : Z) :
  first_rich data m ->
  load_u32 data (m + 4) = Some key ->
  (result (rich_header_from_data data) st = Value 0 <-> Z.lxor Rich key = DanS).
Proof.
  intros Hm Hkey. pose proof Hm as ((H64 & _) & Hrich & _). split.
  - intros Hres.
    pose proof (found_rhdr data st m Hm) as Hr.
    destruct (located_cases _ _ _ _ (rich_header_from_data_located data st))
      as [(Ho & _) | (_ & [(_ & Ho) | (key' & Hk & [(_ & Ho) | (s & Hs & Ho)])])];
      rewrite Ho in Hres; try discriminate.
    rewrite Hr in *. injection Hres as Hres.
    rewrite Hkey in Hk. injection Hk as <-.
    destruct Hs as (_ & (w & Hw & Hx) & _).
    replace s with m in Hw by lia. unfold is_rich in Hrich.
    rewrite Hrich in Hw. injection Hw as <-. assumption.
  - intros Hx. replace 0 with (m - m) by lia.
    apply (located_found data st m key m Hm Hkey).
    split; [|split].
    + split; [lia|]. rewrite Z.sub_diag. reflexivity.
    + exists Rich. split; assumption.
    + intros q [Hq _] Hlt. lia.
Qed.

Lemma from_data_zero_length_witness :
  result (rich_header_from_data self_masked_tail) st0 = Value 0
  <-> Z.lxor Rich (Z.lxor Rich DanS) = DanS.
Proof.
  apply (from_data_zero_length self_masked_tail st0 64 (Z.lxor Rich DanS)).
  - apply first_rich_64; [vm_compute; reflexivity | reflexivity].
  - reflexivity.
Defined.

(** X7: a call that finds the marker with its whole key inside the
    buffer looks at nothing after the key: with any bytes appended to the
    buffer it returns the same value and leaves the pointer at the same
    marker. *)
Theorem from_data_extension (data rest : buffer) (st : state) (m key : Z) :
  first_rich data m ->
  load_u32 data (m + 4) = Some key ->
  result (rich_header_from_data (data ++ rest)) st
  = result (rich_header_from_data data) st /\
  rhdr (final (rich_header_from_data (data ++ rest)) st) = m.
Proof.
  intros Hm Hkey.
  pose proof Hm as ((H64 & Hmod & Hlt) & Hrich & Hfirst).
  pose proof (load_u32_Some _ _ _ Hkey) as (_ & Hk8 & _).
  assert (Hsame : forall q, q <= m + 4 -> load_u32 (data ++ rest) q = load_u32 data q).
  { intros q Hq. apply load_u32_app_l. lia. }
  assert (Hsize : size data <= size (data ++ rest)).
  { rewrite size_app. unfold size. lia. }
  assert (Hm' : first_rich (data ++ rest) m).
  { split; [|split].
    - split; [lia|]. split; [assumption | lia].
    - unfold is_rich. rewrite Hsame by lia. assumption.
    - intros q (Hq64 & Hqmod & _) Hqm. unfold is_rich. rewrite Hsame by lia.
      apply Hfirst; [|assumption]. split; [lia|]. split; [assumption | lia]. }
  assert (Hkey' : load_u32 (data ++ rest) (m + 4) = Some key).
  { rewrite Hsame by lia. assumption. }
  assert (Hdans : forall q, walked m q ->
                    (is_dans (data ++ rest) key q <-> is_dans data key q)).
  { intros q [Hq _]. unfold is_dans. rewrite Hsame by lia. reflexivity. }
  split; [|apply found_rhdr; assumption].
  destruct (located_cases _ _ _ _ (rich_header_from_data_located data st))
    as [(_ & _ & Hno) | (Hf & Hcase)].
  - exfalso. exact (first_rich_not_no_rich _ _ Hm Hno).
  - rewrite (found_rhdr data st m Hm) in Hcase.
    destruct Hcase as [(Hk & _) | (key' & Hk & Hcase)]; [congruence|].
    rewrite Hkey in Hk. injection Hk as <-.
    destruct Hcase as [(Hnone & ->) | (s & (Hw & Hd & Hmin) & ->)].
    + apply (located_unrecoverable _ st m key Hm' Hkey').
      intros q Hq Hd. apply (Hnone q Hq). apply Hdans; assumption.
    + apply (located_found _ st m key s Hm' Hkey').
      split; [assumption|]. split; [apply Hdans; assumption|].
      intros q Hq Hlt' Hd'. apply (Hmin q Hq Hlt'). apply Hdans; assumption.
Qed.

Lemma from_data_extension_witness :
  result (rich_header_from_data (minimal_header ++ zeros 8)) st0
  = result (rich_header_from_data minimal_header) st0 /\
  rhdr (final (rich_header_from_data (minimal_header ++ zeros 8)) st0) = 64.
Proof.
  apply (from_data_extension minimal_header (zeros 8) st0 64 key1).
  - apply first_rich_64; [vm_compute; reflexivity | reflexivity].
  - reflexivity.
Defined.

(** ** rich_header_unmask: what else the code shows *)

Lemma unmask_loop_size (k : nat) :
  forall (i rh p d : Z) (mem mem' : buffer),
    unmask_loop k i rh p d mem = Some mem' -> size mem' = size mem.
Proof.
  induction k as [|k IH]; intros i rh p d mem mem' H.
  - injection H as <-. reflexivity.
  - simpl in H.
    destruct (load_u32 mem (p + sizeof_uint32 * i)) as [w|]; [|discriminate].
    destruct (load_u32 mem (rh + offsetof_Key)) as [key|]; [|discriminate].
    simpl in H.
    destruct (store_u32 mem (d + sizeof_uint32 * i) (Z.lxor w key)) as [mem1|] eqn:Hst;
      [|discriminate].
    simpl in H. rewrite (IH _ _ _ _ _ _ H). eapply store_u32_size. eassumption.
Qed.

(** Two memories holding the same word at an offset hold the same four
    bytes there. *)
Lemma load_u32_same_bytes (m1 m2 : buffer) (q w : Z) :
  load_u32 m1 q = Some w -> load_u32 m2 q = Some w ->
  forall t, 0 <= t < 4 -> load_u8 m1 (q + t) = load_u8 m2 (q + t).
Proof.
  unfold load_u32. intros H1 H2 t Ht.
  destruct (load_u8 m1 q) as [a0|] eqn:A0; simpl in H1; [|discriminate].
  destruct (load_u8 m1 (q + 1)) as [a1|] eqn:A1; simpl in H1; [|discriminate].
  destruct (load_u8 m1 (q + 2)) as [a2|] eqn:A2; simpl in H1; [|discriminate].
  destruct (load_u8 m1 (q + 3)) as [a3|] eqn:A3; simpl in H1; [|discriminate].
  destruct (load_u8 m2 q) as [b0|] eqn:B0; simpl in H2; [|discriminate].
  destruct (load_u8 m2 (q + 1)) as [b1|] eqn:B1; simpl in H2; [|discriminate].
  destruct (load_u8 m2 (q + 2)) as [b2|] eqn:B2; simpl in H2; [|discriminate].
  destruct (load_u8 m2 (q + 3)) as [b3|] eqn:B3; simpl in H2; [|discriminate].
  injection H1 as H1. injection H2 as H2.
  pose proof (load_u8_Some _ _ _ A0). pose proof (load_u8_Some _ _ _ A1).
  pose proof (load_u8_Some _ _ _ A2). pose proof (load_u8_Some _ _ _ A3).
  pose proof (load_u8_Some _ _ _ B0). pose proof (load_u8_Some _ _ _ B1).
  pose proof (load_u8_Some _ _ _ B2). pose proof (load_u8_Some _ _ _ B3).
  assert (a0 = b0 /\ a1 = b1 /\ a2 = b2 /\ a3 = b3) as (-> & -> & -> & ->) by lia.
  assert (Ht' : t = 0 \/ t = 1 \/ t = 2 \/ t = 3) by lia.
  destruct Ht' as [-> | [-> | [-> | ->]]]; rewrite ?Z.add_0_r; congruence.
Qed.

(** Memories with the same bytes everywhere are equal. *)
Lemma load_u8_ext (m1 m2 : buffer) :
  (forall q, 0 <= q -> load_u8 m1 q = load_u8 m2 q) -> m1 = m2.
Proof.
  intros H. apply list_eq. intros i.
  specialize (H (Z.of_nat i) ltac:(lia)). unfold load_u8, load_byte in H.
  destruct (Z.ltb_spec (Z.of_nat i) 0); [lia|]. rewrite Nat2Z.id in H.
  destruct (m1 !! i) as [a|], (m2 !! i) as [b|]; simpl in H; try discriminate;
    [|reflexivity].
  injection H as H. apply byte_to_Z_inj in H. congruence.
Qed.

(** X8: for a span of any size [n >= 0], also one that is not the size of
    a header, the call writes [n / 4] words, each the masked word XOR the
    key, and changes nothing else: the size of the memory stays, and so
    does every byte outside the first [4 * (n / 4)] bytes of the output,
    among them the last [n mod 4] bytes of the span. *)
Theorem unmask_any_size (mem : buffer) (rh n d key : Z) :
  0 <= n -> n <= rh -> 0 <= d -> d + n <= size mem ->
  load_u32 mem (rh + 4) = Some key ->
  d = rh - n \/ d + n <= rh - n \/ rh + 8 <= d ->
  exists mem',
    rich_header_unmask mem rh n d = Some mem' /\
    size mem' = size mem /\
    (forall q, q < d \/ d + 4 * (n / 4) <= q -> load_u8 mem' q = load_u8 mem q) /\
    (forall j, 0 <= j < n / 4 ->
               exists w, load_u32 mem (rh - n + 4 * j) = Some w /\
                         load_u32 mem' (d + 4 * j) = Some (Z.lxor w key)).
Proof.
  intros Hn Hrh Hd Hdst Hkey Halias.
  destruct (rich_header_unmask_spec mem rh n d key Hn Hrh Hd Hdst Hkey Halias)
    as (mem' & Hrun & Hrest).
  exists mem'. split; assumption.
Qed.

Lemma unmask_any_size_witness :
  exists mem',
    rich_header_unmask dans_next_to_rich 64 6 58 = Some mem' /\
    size mem' = size dans_next_to_rich /\
    (forall q, q < 58 \/ 58 + 4 * (6 / 4) <= q ->
               load_u8 mem' q = load_u8 dans_next_to_rich q) /\
    (forall j, 0 <= j < 6 / 4 ->
               exists w, load_u32 dans_next_to_rich (64 - 6 + 4 * j) = Some w /\
                         load_u32 mem' (58 + 4 * j) = Some (Z.lxor w key1)).
Proof.
  apply (unmask_any_size dans_next_to_rich 64 6 58 key1).
  - lia.
  - lia.
  - lia.
  - vm_compute. discriminate.
  - reflexivity.
  - left. reflexivity.
Defined.

(** X9: unmasking in place twice gives back the memory the first call
    started from. *)
Theorem unmask_twice (mem mem' : buffer) (rh n key : Z) :
  0 <= n -> n <= rh ->
  load_u32 mem (rh + 4) = Some key ->
  rich_header_unmask mem rh n (rh - n) = Some mem' ->
  rich_header_unmask mem' rh n (rh - n) = Some mem.
Proof.
  intros Hn Hrh Hkey Hrun.
  pose proof (load_u32_Some _ _ _ Hkey) as (_ & Hk8 & _).
  assert (Hdiv : 0 <= n / 4 /\ 4 * (n / 4) <= n)
    by (Z.to_euclidean_division_equations; lia).
  destruct (rich_header_unmask_spec mem rh n (rh - n) key)
    as (mem1 & Hrun1 & Hsz1 & Hframe1 & Hwords1); try lia; try assumption.
  rewrite Hrun in Hrun1. injection Hrun1 as <-.
  assert (Hkey' : load_u32 mem' (rh + 4) = Some key).
  { rewrite <- Hkey. apply load_u32_ext. intros t Ht. apply Hframe1. lia. }
  destruct (rich_header_unmask_spec mem' rh n (rh - n) key)
    as (mem2 & Hrun2 & Hsz2 & Hframe2 & Hwords2); try lia; try assumption.
  rewrite Hrun2. f_equal. apply load_u8_ext. intros q Hq.
  destruct (Z_lt_le_dec q (rh - n)) as [Hlow|Hge];
    [rewrite Hframe2, Hframe1 by lia; reflexivity|].
  destruct (Z_le_gt_dec (rh - n + 4 * (n / 4)) q) as [Hhigh|Hin];
    [rewrite Hframe2, Hframe1 by lia; reflexivity|].
  set (j := (q - (rh - n)) / 4).
  assert (Hj : 0 <= j < n / 4 /\ 0 <= q - (rh - n + 4 * j) < 4).
  { unfold j. Z.to_euclidean_division_equations. lia. }
  destruct (Hwords1 j) as (w & Hw0 & Hw1); [lia|].
  destruct (Hwords2 j) as (w' & Hw0' & Hw1'); [lia|].
  rewrite Hw1 in Hw0'. injection Hw0' as <-.
  rewrite lxor_lxor_key in Hw1'.
  replace q with (rh - n + 4 * j + (q - (rh - n + 4 * j))) by lia.
  apply (load_u32_same_bytes _ _ _ w); [assumption | assumption | lia].
Qed.

Lemma unmask_twice_witness :
  rich_header_unmask
    (default [] (rich_header_unmask scenario 88 24 (88 - 24))) 88 24 (88 - 24)
  = Some scenario.
Proof.
  apply (unmask_twice scenario _ 88 24 key1).
  - lia.
  - lia.
  - reflexivity.
  - vm_compute. reflexivity.
Defined.

(** X10: an in-place call on a span of at least one word succeeds
    exactly when the span starts inside the memory and the 8 bytes of the
    tail end inside it; otherwise it reads outside the memory. *)
Theorem unmask_in_place_safe_exactly (mem : buffer) (rh n : Z) :
  4 <= n ->
  (is_Some (rich_header_unmask mem rh n (rh - n)) <->
   0 <= rh - n /\ rh + 8 <= size mem).
Proof.
  intros Hn. split.
  - intros [mem' Hrun]. unfold rich_header_unmask, sizeof_uint32 in Hrun.
    assert (Hk : exists k, Z.to_nat (n / 4) = S k).
    { exists (Z.to_nat (n / 4) - 1)%nat. Z.to_euclidean_division_equations. lia. }
    destruct Hk as [k Hk]. rewrite Hk in Hrun. simpl in Hrun.
    unfold sizeof_uint32, offsetof_Key in Hrun.
    destruct (load_u32 mem (rh - n + 4 * 0)) as [w|] eqn:Hw; [|discriminate].
    destruct (load_u32 mem (rh + 4)) as [key|] eqn:Hkey; [|discriminate].
    apply load_u32_Some in Hw, Hkey. lia.
  - intros [Hlow Hhigh].
    destruct (load_u32_in_bounds mem (rh + 4)) as [key Hkey]; [lia | lia |].
    destruct (rich_header_unmask_spec mem rh n (rh - n) key)
      as (mem' & Hrun & _); try lia; try assumption.
    rewrite Hrun. eauto.
Qed.

Lemma unmask_in_place_safe_exactly_witness :
  is_Some (rich_header_unmask scenario 88 24 (88 - 24)) <->
  0 <= 88 - 24 /\ 88 + 8 <= size scenario.
Proof.
  apply (unmask_in_place_safe_exactly scenario 88 24). lia.
Defined.

(** ** The product count and the products *)

Lemma load_u16_in_bounds (mem : buffer) (off : Z) :
  0 <= off -> off + 2 <= size mem -> is_Some (load_u16 mem off).
Proof.
  intros H0 H2. unfold load_u16.
  destruct (load_u8_in_bounds mem off) as [b0 ->]; [lia|].
  destruct (load_u8_in_bounds mem (off + 1)) as [b1 ->]; [lia|].
  simpl. eauto.
Qed.

Lemma load_product_in_bounds (mem : buffer) (hdr i : Z) :
  0 <= hdr -> 0 <= i -> hdr + 16 + 8 * i + 8 <= size mem ->
  is_Some (load_product mem hdr i).
Proof.
  intros Hh Hi Hend. unfold load_product, offsetof_Products, sizeof_product.
  destruct (load_u16_in_bounds mem (hdr + 16 + 8 * i)) as [b ->]; [lia | lia |].
  destruct (load_u16_in_bounds mem (hdr + 16 + 8 * i + 2)) as [p ->]; [lia | lia |].
  destruct (load_u32_in_bounds mem (hdr + 16 + 8 * i + 4)) as [c ->]; [lia | lia |].
  simpl. eauto.
Qed.

Lemma load_product_out (mem : buffer) (hdr i : Z) :
  size mem <= hdr + 16 + 8 * i -> load_product mem hdr i = None.
Proof.
  intros Hout. unfold load_product, offsetof_Products, sizeof_product, load_u16.
  rewrite (load_u8_out mem (hdr + 16 + 8 * i)) by lia. reflexivity.
Qed.

(** X11: for a size of at least 16 the macro gives [(size - 16) / 8], and
    the entries it counts end inside the span: with the span inside the
    memory every product is read, whether or not [size - 16] is a
    multiple of 8. *)
Theorem products_within_span (mem : buffer) (hdr n : Z) :
  16 <= n < 2 ^ 64 ->
  0 <= hdr -> hdr + n <= size mem ->
  16 + 8 * rich_header_products_len n <= n /\
  exists ps, products mem hdr n = Some ps /\
             Z.of_nat (length ps) = (n - 16) / 8.
Proof.
  intros Hn Hh Hend.
  rewrite (rich_header_products_len_eq n Hn).
  assert (Hlen : 0 <= (n - 16) / 8 /\ 16 + 8 * ((n - 16) / 8) <= n)
    by (Z.to_euclidean_division_equations; lia).
  split; [lia|].
  assert (Hsome : is_Some (products mem hdr n)).
  { unfold products. rewrite (rich_header_products_len_eq n Hn).
    apply mapM_is_Some, Forall_seq. intros j Hj. simpl.
    apply load_product_in_bounds; lia. }
  destruct Hsome as [ps Hps]. exists ps. split; [assumption|].
  unfold products in Hps. apply length_mapM in Hps.
  rewrite length_seq, (rich_header_products_len_eq n Hn) in Hps. lia.
Qed.

Lemma products_within_span_witness :
  16 + 8 * rich_header_products_len 20 <= 20 /\
  exists ps, products minimal_header 44 20 = Some ps /\
             Z.of_nat (length ps) = (20 - 16) / 8.
Proof.
  apply (products_within_span minimal_header 44 20).
  - lia.
  - lia.
  - vm_compute. discriminate.
Defined.

(** Reading more products than the memory can hold fails. *)
Lemma products_wrap (mem : buffer) (hdr n : Z) :
  0 <= n < 16 -> 0 <= hdr -> size mem < 2 ^ 60 ->
  products mem hdr n = None.
Proof.
  intros Hn Hh Hsize.
  assert (Hlen : 2 ^ 60 <= rich_header_products_len n).
  { unfold rich_header_products_len, size_t_wrap, sizeof_uint32, sizeof_product.
    change (2 ^ 60) with 1152921504606846976.
    change (2 ^ 64) with 18446744073709551616.
    Z.to_euclidean_division_equations. lia. }
  unfold products. apply mapM_None. apply Exists_exists.
  exists (length mem). split.
  - apply elem_of_seq. unfold size in Hsize. lia.
  - apply load_product_out. unfold size. lia.
Qed.

(** X12: for a size below 16 the subtraction in the macro wraps around:
    the count is at least 2^60, and reading that many products runs past
    the end of any memory of fewer than 2^60 bytes. *)
Theorem products_wrap_below_16 (mem : buffer) (hdr n : Z) :
  0 <= n < 16 ->
  0 <= hdr -> size mem < 2 ^ 60 ->
  2 ^ 60 <= rich_header_products_len n /\
  products mem hdr n = None.
Proof.
  intros Hn Hh Hsize.
  split; [|apply products_wrap; assumption].
  unfold rich_header_products_len, size_t_wrap, sizeof_uint32, sizeof_product.
  change (2 ^ 60) with 1152921504606846976.
  change (2 ^ 64) with 18446744073709551616.
  Z.to_euclidean_division_equations. lia.
Qed.

Lemma products_wrap_below_16_witness :
  2 ^ 60 <= rich_header_products_len 4 /\
  products dans_next_to_rich 60 4 = None.
Proof.
  apply (products_wrap_below_16 dans_next_to_rich 60 4).
  - lia.
  - lia.
  - vm_compute. reflexivity.
Defined.

(** ** The classifiers: what else the code shows *)

Lemma names_distinct_all :
  holds_from names_distinct_b (Z.to_nat 0x010f) 0 = true.
Proof. vm_compute. reflexivity. Qed.

(** X13: the names are pairwise distinct: two ids with a [case] of their
    own and the same name are the same id, so a name identifies its
    product id. *)
Theorem productid_names_distinct (a b : Z) :
  has_name a -> has_name b ->
  rich_header_productid_to_cstr a = rich_header_productid_to_cstr b ->
  a = b.
Proof.
  unfold has_name. intros Ha Hb Heq.
  pose proof (holds_from_spec _ _ _ names_distinct_all a ltac:(lia)) as H.
  unfold names_distinct_b in H.
  pose proof (holds_from_spec _ _ _ H b ltac:(lia)) as H'.
  unfold names_differ_b in H'. rewrite Heq, String.eqb_refl in H'.
  simpl in H'. apply Z.eqb_eq. assumption.
Qed.

Lemma productid_names_distinct_witness : 0x00aa = 0x00aa.
Proof.
  apply (productid_names_distinct 0x00aa 0x00aa).
  - unfold has_name. lia.
  - unfold has_name. lia.
  - reflexivity.
Defined.

(** X14: whenever the release of a product id is known, so is its name:
    no 16-bit id gets a release string and an empty name. *)
Theorem release_known_name_known (product_id : Z) :
  0 <= product_id <= 0xFFFF ->
  rich_header_productid_to_vsver_cstr product_id <> EmptyString ->
  rich_header_productid_to_cstr product_id <> EmptyString.
Proof.
  intros Hid Hrel Hname.
  pose proof (holds_from_spec _ _ _ classified_all product_id ltac:(lia)) as Hc.
  unfold classified_b in Hc. apply andb_true_iff in Hc as [Hn Hr].
  apply Bool.eqb_prop in Hn, Hr.
  apply String.eqb_eq in Hname. rewrite Hname in Hn.
  symmetry in Hn. apply negb_true_iff in Hn.
  destruct (has_release_b product_id) eqn:Hb.
  - apply has_release_b_spec in Hb.
    assert (Hhas : has_name product_id) by (unfold has_release, has_name in *; lia).
    apply has_name_b_spec in Hhas. congruence.
  - simpl in Hr. apply String.eqb_eq in Hr. contradiction.
Qed.

Lemma release_known_name_known_witness :
  rich_header_productid_to_cstr 0x00aa <> EmptyString.
Proof.
  apply (release_known_name_known 0x00aa).
  - lia.
  - vm_compute. discriminate.
Defined.

Lemma release_ranges_all :
  holds_from release_ranges_b (Z.to_nat 0x10000) 0 = true.
Proof. vm_compute. reflexivity. Qed.

Lemma release_when_spec (release s : string) (known : bool) :
  release_when release s known = true -> (release = s <-> known = true).
Proof.
  unfold release_when. intros H. apply Bool.eqb_prop in H.
  rewrite <- String.eqb_eq, H. reflexivity.
Qed.

Lemma in_range_spec (lo hi product_id : Z) :
  in_range lo hi product_id = true <-> lo <= product_id <= hi.
Proof. unfold in_range. rewrite andb_true_iff, !Z.leb_le. reflexivity. Qed.

(** X15: the tests of the release chain overlap, and the first one that
    holds wins. An id on the border of two ranges (0x0106, 0x00fd, 0x00eb,
    0x00d9, 0x00c7, 0x00b5, 0x0098, 0x0083, 0x006d) gets the newer
    release, and 0xC gets "Visual Studio 6.0 06.00", never "Visual Studio
    97 05.00". These are the ids of each release. *)
Theorem release_ranges (product_id : Z) :
  0 <= product_id <= 0xFFFF ->
  let release := rich_header_productid_to_vsver_cstr product_id in
  (release = "Visual Studio 2017 14.01+"%string <-> 0x0106 <= product_id <= 0x010a) /\
  (release = "Visual Studio 2015 14.00"%string <-> 0x00fd <= product_id <= 0x0105) /\
  (release = "Visual Studio 2013 12.10"%string <-> 0x00eb <= product_id <= 0x00fc) /\
  (release = "Visual Studio 2013 12.00"%string <-> 0x00d9 <= product_id <= 0x00ea) /\
  (release = "Visual Studio 2012 11.00"%string <-> 0x00c7 <= product_id <= 0x00d8) /\
  (release = "Visual Studio 2010 10.10"%string <-> 0x00b5 <= product_id <= 0x00c6) /\
  (release = "Visual Studio 2010 10.00"%string <-> 0x0098 <= product_id <= 0x00b4) /\
  (release = "Visual Studio 2008 09.00"%string <-> 0x0083 <= product_id <= 0x0097) /\
  (release = "Visual Studio 2005 08.00"%string <-> 0x006d <= product_id <= 0x0082) /\
  (release = "Visual Studio 2003 07.10"%string <-> 0x005a <= product_id <= 0x006c) /\
  (release = "Visual Studio 2002 07.00"%string <-> 0x0019 <= product_id <= 0x0045) /\
  (release = "Visual Studio 6.0 06.00"%string <->
   0xA <= product_id <= 0xD \/ 0x15 <= product_id <= 0x16) /\
  (release = "Visual Studio 97 05.00"%string <->
   product_id = 0x2 \/ product_id = 0x6 \/ product_id = 0xE) /\
  (release = "Visual Studio"%string <-> product_id = 1).
Proof.
  intros Hid release. subst release.
  pose proof (holds_from_spec _ _ _ release_ranges_all product_id ltac:(lia)) as H.
  unfold release_ranges_b in H. cbn zeta in H.
  repeat (apply andb_true_iff in H as [H ?]).
  repeat match goal with
         | Hw : release_when _ _ _ = true |- _ => apply release_when_spec in Hw
         end.
  repeat match goal with |- _ /\ _ => split end;
    match goal with
    | Hw : ?P <-> _ |- ?P <-> _ => rewrite Hw
    end;
    rewrite ?orb_true_iff, ?in_range_spec, ?Z.eqb_eq; tauto.
Qed.

Lemma release_ranges_witness :
  let release := rich_header_productid_to_vsver_cstr 0xC in
  (release = "Visual Studio 2017 14.01+"%string <-> 0x0106 <= 0xC <= 0x010a) /\
  (release = "Visual Studio 2015 14.00"%string <-> 0x00fd <= 0xC <= 0x0105) /\
  (release = "Visual Studio 2013 12.10"%string <-> 0x00eb <= 0xC <= 0x00fc) /\
  (release = "Visual Studio 2013 12.00"%string <-> 0x00d9 <= 0xC <= 0x00ea) /\
  (release = "Visual Studio 2012 11.00"%string <-> 0x00c7 <= 0xC <= 0x00d8) /\
  (release = "Visual Studio 2010 10.10"%string <-> 0x00b5 <= 0xC <= 0x00c6) /\
  (release = "Visual Studio 2010 10.00"%string <-> 0x0098 <= 0xC <= 0x00b4) /\
  (release = "Visual Studio 2008 09.00"%string <-> 0x0083 <= 0xC <= 0x0097) /\
  (release = "Visual Studio 2005 08.00"%string <-> 0x006d <= 0xC <= 0x0082) /\
  (release = "Visual Studio 2003 07.10"%string <-> 0x005a <= 0xC <= 0x006c) /\
  (release = "Visual Studio 2002 07.00"%string <-> 0x0019 <= 0xC <= 0x0045) /\
  (release = "Visual Studio 6.0 06.00"%string <->
   0xA <= 0xC <= 0xD \/ 0x15 <= 0xC <= 0x16) /\
  (release = "Visual Studio 97 05.00"%string <-> 0xC = 0x2 \/ 0xC = 0x6 \/ 0xC = 0xE) /\
  (release = "Visual Studio"%string <-> 0xC = 1).
Proof.
  apply (release_ranges 0xC). lia.
Defined.

(** ** example.c: what main does with a file *)

Lemma rich_header_unmask_size (mem mem' : buffer) (rh n d : Z) :
  rich_header_unmask mem rh n d = Some mem' -> size mem' = size mem.
Proof. unfold rich_header_unmask. apply unmask_loop_size. Qed.

(** What a positive result says about the pointer. *)
Lemma positive_result (data : buffer) (st : state) (n : Z) :
  result (rich_header_from_data data) st = Value n ->
  0 < n ->
  0 <= rhdr (final (rich_header_from_data data) st) - n /\
  rhdr (final (rich_header_from_data data) st) + 8 <= size data.
Proof.
  intros Hres Hn.
  destruct (located_cases _ _ _ _ (rich_header_from_data_located data st))
    as [(Ho & _) | (Hf & [(_ & Ho) | (key & Hk & [(_ & Ho) | (s & Hs & Ho)])])];
    rewrite Ho in Hres; try discriminate; injection Hres as <-; try lia.
  destruct Hs as ((Hs & _) & _). apply load_u32_Some in Hk. lia.
Qed.

(** Locating and unmasking an assembled header, step by step. *)
Lemma assembled_decoded (pad : buffer) (key : Z)
  (prods : list IMAGE_MASKED_RICH_HEADER_PRODUCT) (st : state) :
  64 <= size pad ->
  size pad mod 4 = 0 ->
  (forall q, 64 <= q -> q mod 4 = 0 -> q + 4 <= size pad ->
             load_u32 pad q <> Some Rich) ->
  0 <= key < 2 ^ 32 ->
  Forall product_ok prods ->
  16 + 8 * Z.of_nat (length prods) < 2 ^ 64 ->
  Forall (fun w => w <> Rich) (header_words key prods) ->
  Forall (fun e => product_word e <> DanS /\ ObjectCount e <> DanS) prods ->
  let data := assemble pad key prods in
  let n := 16 + 8 * Z.of_nat (length prods) in
  result (rich_header_from_data data) st = Value n /\
  rhdr (final (rich_header_from_data data) st) = size pad + n /\
  exists file,
    rich_header_unmask data (size pad + n) n (size pad) = Some file /\
    products file (size pad) n = Some prods.
Proof.
  intros Hpad64 Hpad4 Hpad_rich Hkey Hok Hlen Hmasked Hplain data n.
  pose proof (assembled_L key prods) as HL.
  pose proof (assembled_first_rich pad key prods Hpad64 Hpad4 Hpad_rich Hkey Hok Hmasked)
    as Hfirst.
  pose proof (assembled_key pad key prods Hkey) as Hk.
  pose proof (assembled_header_start pad key prods Hpad64 Hkey Hok Hmasked Hplain)
    as Hstart.
  pose proof (assembled_size pad key prods) as Hsize.
  unfold tail_offset in Hfirst, Hk, Hstart, Hsize. fold data in Hfirst, Hk, Hstart, Hsize.
  assert (Hn : 4 * header_len key prods = n) by (unfold n; lia).
  rewrite Hn in *.
  pose proof (located_found data st _ _ _ Hfirst Hk Hstart) as Hres.
  replace (size pad + n - size pad) with n in Hres by lia.
  split; [assumption|]. split; [apply found_rhdr; assumption|].
  destruct (rich_header_unmask_spec data (size pad + n) n (size pad) key)
    as (file & Hrun & _ & _ & Hwords); try lia; try assumption.
  exists file. split; [assumption|].
  assert (Hn4 : n / 4 = header_len key prods)
    by (Z.to_euclidean_division_equations; lia).
  rewrite (products_of_words file (size pad) n
             (fun j => default 0 (plain_words prods !! Z.to_nat j))).
  - replace (n - 16) with (Z.of_nat (length prods) * 8) by (unfold n; lia).
    rewrite Z.div_mul by lia. rewrite Nat2Z.id.
    rewrite unpack_plain_words by assumption. reflexivity.
  - unfold n. lia.
  - replace (n - 16) with (Z.of_nat (length prods) * 8) by (unfold n; lia).
    apply Z.mod_mul. lia.
  - intros j Hj. rewrite Hn4 in Hj.
    destruct (Hwords j) as (w & Hw0 & Hw1); [lia|].
    rewrite Hw1. f_equal.
    assert (Hi : (Z.to_nat j < length (plain_words prods))%nat).
    { rewrite length_plain_words. lia. }
    destruct (lookup_lt_is_Some_2 _ _ Hi) as [pw Hpw]. rewrite Hpw. simpl.
    assert (Hhw : header_words key prods !! Z.to_nat j = Some (Z.lxor pw key)).
    { unfold header_words. rewrite list_lookup_fmap, Hpw. reflexivity. }
    pose proof (assembled_word pad key prods Hkey Hok (Z.to_nat j) _ Hhw) as Hload.
    fold data in Hload.
    replace (size pad + n - n + 4 * j) with (size pad + 4 * Z.of_nat (Z.to_nat j))
      in Hw0 by lia.
    rewrite Hload in Hw0. injection Hw0 as <-. apply lxor_lxor_key.
Qed.

Lemma load_product_Some_bounds (mem : buffer) (hdr i : Z)
  (p : IMAGE_MASKED_RICH_HEADER_PRODUCT) :
  load_product mem hdr i = Some p ->
  0 <= hdr + 16 + 8 * i /\ hdr + 16 + 8 * i + 8 <= size mem.
Proof.
  unfold load_product, offsetof_Products, sizeof_product. intros H.
  destruct (load_u16 mem (hdr + 16 + 8 * i)) as [b|] eqn:Hb; [|discriminate].
  destruct (load_u16 mem (hdr + 16 + 8 * i + 2)) as [q|]; [|discriminate].
  destruct (load_u32 mem (hdr + 16 + 8 * i + 4)) as [c|] eqn:Hc; [|discriminate].
  apply load_u32_Some in Hc. unfold load_u16 in Hb.
  destruct (load_u8 mem (hdr + 16 + 8 * i)) as [b0|] eqn:Hb0; [|discriminate].
  apply load_u8_Some in Hb0. lia.
Qed.

Lemma rows_of_cons (i : nat) (p : IMAGE_MASKED_RICH_HEADER_PRODUCT)
  (ps : list IMAGE_MASKED_RICH_HEADER_PRODUCT) :
  rows_of i (p :: ps) = print_row i p :: rows_of (S i) ps.
Proof.
  unfold rows_of. rewrite imap_cons, Nat.add_0_r. f_equal.
  apply imap_ext. intros j x _. simpl. f_equal. lia.
Qed.

Lemma rows_of_0 (ps : list IMAGE_MASKED_RICH_HEADER_PRODUCT) :
  rows_of 0 ps = imap print_row ps.
Proof. reflexivity. Qed.

Lemma length_rows_of (i : nat) (ps : list IMAGE_MASKED_RICH_HEADER_PRODUCT) :
  length (rows_of i ps) = length ps.
Proof. unfold rows_of. apply length_imap. Qed.

Lemma read_all_cons (file : buffer) (hdr : Z) (i : nat)
  (p : IMAGE_MASKED_RICH_HEADER_PRODUCT)
  (ps : list IMAGE_MASKED_RICH_HEADER_PRODUCT) :
  load_product file hdr (Z.of_nat i) = Some p ->
  read_all file hdr (S i) ps ->
  read_all file hdr i (p :: ps).
Proof.
  intros Hp Hps [|j] x Hx; simpl in Hx.
  - injection Hx as <-. rewrite Nat.add_0_r. assumption.
  - replace (i + S j)%nat with (S i + j)%nat by lia. apply Hps. assumption.
Qed.

(** Products that were read lie inside the file. *)
Lemma read_all_bound (file : buffer) (hdr : Z) (i : nat)
  (ps : list IMAGE_MASKED_RICH_HEADER_PRODUCT) :
  read_all file hdr i ps -> 0 <= hdr ->
  8 * Z.of_nat (length ps) <= size file /\
  (ps <> [] -> hdr + 16 + 8 * Z.of_nat (i + length ps) <= size file).
Proof.
  intros Hall Hh. destruct (length ps) as [|k] eqn:Hlen.
  - split; [unfold size; lia|]. intros Hne. destruct ps; [congruence | discriminate].
  - assert (Hk : (k < length ps)%nat) by lia.
    destruct (lookup_lt_is_Some_2 _ _ Hk) as [p Hp].
    apply Hall, load_product_Some_bounds in Hp. split; [lia|]. intros _. lia.
Qed.

(** The loop, run forward: when the products up to [len] can all be read,
    it prints their rows and ends. *)
Lemma print_loop_run (file : buffer) (hdr : Z)
  (ps : list IMAGE_MASKED_RICH_HEADER_PRODUCT) :
  forall (fuel i : nat) (printed : list row),
    read_all file hdr i ps ->
    (length ps < fuel)%nat ->
    print_loop fuel file hdr (Z.of_nat (i + length ps)) i printed
    = Printed (printed ++ rows_of i ps).
Proof.
  induction ps as [|p ps IH]; intros fuel i printed Hall Hfuel;
    (destruct fuel as [|fuel]; [simpl in Hfuel; lia|]); simpl.
  - destruct (Z.ltb_spec (Z.of_nat i) (Z.of_nat (i + 0))); [lia|].
    rewrite app_nil_r. reflexivity.
  - destruct (Z.ltb_spec (Z.of_nat i) (Z.of_nat (i + S (length ps)))); [|lia].
    pose proof (Hall 0%nat p eq_refl) as Hp. rewrite Nat.add_0_r in Hp.
    rewrite Hp. replace (i + S (length ps))%nat with (S i + length ps)%nat by lia.
    rewrite IH.
    + rewrite rows_of_cons, <- app_assoc. reflexivity.
    + intros j x Hx. replace (S i + j)%nat with (i + S j)%nat by lia.
      apply Hall. assumption.
    + simpl in Hfuel. lia.
Qed.

(** The loop, whatever the file holds: the products [ps] were read and
    their rows printed, and then either the index reached [len], or the
    next read fell outside the file, or the budget was used up. *)
Lemma print_loop_spec (file : buffer) (hdr len : Z) :
  forall (fuel i : nat) (printed : list row),
  exists ps,
    read_all file hdr i ps /\
    ((print_loop fuel file hdr len i printed = Printed (printed ++ rows_of i ps) /\
      Z.of_nat (i + length ps) = Z.max (Z.of_nat i) len) \/
     (print_loop fuel file hdr len i printed = ReadOutside (printed ++ rows_of i ps) /\
      Z.of_nat (i + length ps) < len /\
      load_product file hdr (Z.of_nat (i + length ps)) = None) \/
     (print_loop fuel file hdr len i printed = Unfinished (printed ++ rows_of i ps) /\
      length ps = fuel)).
Proof.
  induction fuel as [|fuel IH]; intros i printed.
  - exists []. split; [intros j p Hp; discriminate|].
    right. right. simpl. rewrite app_nil_r. split; reflexivity.
  - simpl. destruct (Z.ltb_spec (Z.of_nat i) len) as [Hlt|Hge].
    + destruct (load_product file hdr (Z.of_nat i)) as [p|] eqn:Hp.
      * destruct (IH (S i) (printed ++ [print_row i p])) as (ps & Hall & Hcase).
        exists (p :: ps). split; [apply read_all_cons; assumption|].
        rewrite rows_of_cons. rewrite <- app_assoc in Hcase. simpl in Hcase.
        simpl length. replace (i + S (length ps))%nat with (S i + length ps)%nat by lia.
        destruct Hcase as [(-> & Hmax) | [(-> & Hlen & Hout) | (-> & Hlen)]].
        -- left. split; [reflexivity | lia].
        -- right. left. split; [reflexivity|]. split; assumption.
        -- right. right. split; [reflexivity | lia].
      * exists []. split; [intros j p Hj; discriminate|].
        right. left. simpl. rewrite app_nil_r, Nat.add_0_r.
        split; [reflexivity|]. split; assumption.
    + exists []. split; [intros j p Hj; discriminate|].
      left. simpl. rewrite app_nil_r. split; [reflexivity | lia].
Qed.

(** The products of a header, as the loop reads them. *)
Lemma products_read_all (file : buffer) (hdr n : Z)
  (ps : list IMAGE_MASKED_RICH_HEADER_PRODUCT) :
  products file hdr n = Some ps ->
  read_all file hdr 0 ps /\
  Z.of_nat (length ps) = rich_header_products_len n.
Proof.
  unfold products. intros Hps. split.
  - apply mapM_Some_1 in Hps. intros j p Hp.
    destruct (Forall2_lookup_r _ _ _ _ _ Hps Hp) as (x & Hx & Hload).
    apply lookup_seq in Hx. destruct Hx as [-> _]. assumption.
  - apply length_mapM in Hps. rewrite length_seq in Hps. rewrite <- Hps.
    apply Z2Nat.id. unfold rich_header_products_len, size_t_wrap, sizeof_product.
    apply Z.div_pos; [|lia]. apply Z.mod_pos_bound. lia.
Qed.

Lemma main_after_read_unfold (content : buffer) (r0 n : Z) :
  load_u16 content 0 = Some 0x5a4d ->
  result (rich_header_from_data content) (mkState r0 []) = Value n ->
  0 < n ->
  main_after_read content r0 =
  let rh := rhdr (final (rich_header_from_data content) (mkState r0 [])) in
  match rich_header_unmask content rh n (rh - n) with
  | None => ReadOutside []
  | Some file =>
      print_loop (S (length file)) file (rh - n) (rich_header_products_len n) 0 []
  end.
Proof.
  intros Hmz Hres Hn. unfold main_after_read.
  assert (Hsize : 0 < size content).
  { unfold load_u16 in Hmz.
    destruct (load_u8 content 0) as [b|] eqn:Hb; [|discriminate].
    apply load_u8_Some in Hb. lia. }
  destruct (Z.gtb_spec (size content) 0); [|lia]. simpl.
  rewrite Hmz. simpl.
  unfold result, final in *.
  destruct (rich_header_from_data content (mkState r0 [])) as [o st].
  simpl in *. subst o.
  destruct (Z.gtb_spec n 0); [|lia]. reflexivity.
Qed.

(** What [main] did before the loop, read off from a run that got past
    the asserts. *)
Lemma main_after_read_passed (content : buffer) (r0 : Z) :
  main_after_read content r0 <> AssertFailed ->
  main_after_read content r0 <> ReadOutside [] ->
  load_u16 content 0 = Some 0x5a4d /\
  exists n,
    result (rich_header_from_data content) (mkState r0 []) = Value n /\ 0 < n.
Proof.
  intros Hassert Hout. unfold main_after_read in Hassert, Hout.
  destruct (negb (size content >? 0)); [congruence|].
  destruct (load_u16 content 0) as [magic|]; [|congruence].
  destruct (Z.eqb_spec magic 0x5a4d) as [E|]; [|simpl in Hassert; congruence].
  split; [rewrite E; reflexivity|]. simpl in Hassert, Hout.
  pose proof (rich_header_from_data_terminates content (mkState r0 [])) as Hterm.
  unfold result in *.
  destruct (rich_header_from_data content (mkState r0 [])) as [[n| |] st];
    simpl in *; try congruence.
  exists n. split; [reflexivity|].
  destruct (Z.gtb_spec n 0); [lia | simpl in Hassert; congruence].
Qed.

(** The iteration budget of the model is never what ends [main]. *)
Lemma main_after_read_finishes (content : buffer) (r0 : Z) (rows : list row) :
  main_after_read content r0 <> Unfinished rows.
Proof.
  intros Hmain.
  destruct (main_after_read_passed content r0) as (Hmz & n & Hres & Hpos);
    [congruence | congruence |].
  rewrite (main_after_read_unfold content r0 n Hmz Hres Hpos) in Hmain.
  cbn zeta in Hmain.
  destruct (positive_result content (mkState r0 []) n Hres Hpos) as [Hlow _].
  destruct (rich_header_unmask content _ n _) as [file|]; [|discriminate].
  destruct (print_loop_spec file
              (rhdr (final (rich_header_from_data content) (mkState r0 [])) - n)
              (rich_header_products_len n) (S (length file)) 0 [])
    as (ps & Hall & [(Heq & _) | [(Heq & _) | (_ & Hlen)]]);
    try (rewrite Heq in Hmain; discriminate).
  destruct (read_all_bound _ _ _ _ Hall Hlow) as [Hb _].
  unfold size in Hb. lia.
Qed.

(** X16: on a file that starts with "MZ" and holds a header assembled as
    for the round trip (padding of at least 64 bytes, a multiple of 4
    long, without "Rich" at a tested offset; no masked word reading
    "Rich"; no product field reading "DanS"), [main] passes its asserts,
    prints one row per product, in the order of the file, each with the
    product's own fields and the release and name of its product id, and
    returns. *)
Theorem main_prints_the_products (pad : buffer) (key : Z)
  (prods : list IMAGE_MASKED_RICH_HEADER_PRODUCT) (r0 : Z) :
  load_u16 pad 0 = Some 0x5a4d ->
  64 <= size pad ->
  size pad mod 4 = 0 ->
  (forall q, 64 <= q -> q mod 4 = 0 -> q + 4 <= size pad ->
             load_u32 pad q <> Some Rich) ->
  0 <= key < 2 ^ 32 ->
  Forall product_ok prods ->
  16 + 8 * Z.of_nat (length prods) < 2 ^ 64 ->
  Forall (fun w => w <> Rich) (header_words key prods) ->
  Forall (fun e => product_word e <> DanS /\ ObjectCount e <> DanS) prods ->
  main_after_read (assemble pad key prods) r0 = Printed (imap print_row prods).
Proof.
  intros Hmz Hpad64 Hpad4 Hpad_rich Hkey Hok Hlen Hmasked Hplain.
  destruct (assembled_decoded pad key prods (mkState r0 [])
              Hpad64 Hpad4 Hpad_rich Hkey Hok Hlen Hmasked Hplain)
    as (Hres & Hrh & file & Hrun & Hprods).
  assert (Hmz' : load_u16 (assemble pad key prods) 0 = Some 0x5a4d).
  { rewrite <- Hmz. unfold assemble. apply load_u16_ext.
    intros t Ht. apply load_u8_app_l. lia. }
  rewrite (main_after_read_unfold _ r0 _ Hmz' Hres) by lia.
  cbn zeta. rewrite Hrh.
  replace (size pad + (16 + 8 * Z.of_nat (length prods))
           - (16 + 8 * Z.of_nat (length prods))) with (size pad) by lia.
  rewrite Hrun.
  destruct (products_read_all _ _ _ _ Hprods) as [Hall Hcount].
  rewrite <- Hcount.
  destruct (read_all_bound _ _ _ _ Hall) as [Hb _]; [lia|].
  pose proof (print_loop_run file (size pad) prods (S (length file)) 0%nat [] Hall)
    as Hloop.
  rewrite Nat.add_0_l in Hloop. rewrite Hloop by (unfold size in Hb; lia).
  reflexivity.
Qed.

Lemma main_prints_the_products_witness :
  main_after_read (assemble mz_pad key1 [utc1600_c]) 0
  = Printed (imap print_row [utc1600_c]).
Proof.
  apply (main_prints_the_products mz_pad key1 [utc1600_c] 0).
  - reflexivity.
  - vm_compute. discriminate.
  - reflexivity.
  - intros q H64 _ Hq. change (size mz_pad) with 64 in Hq. lia.
  - unfold key1. lia.
  - repeat constructor; simpl; lia.
  - simpl. lia.
  - repeat (constructor; [vm_compute; discriminate|]). constructor.
  - repeat (constructor; [split; vm_compute; discriminate|]). constructor.
Defined.

(** X17: the assert [rich_header_size > 0] lets sizes below 16 through,
    and for these the product count wraps around: on a file of fewer than
    2^60 bytes that starts with "MZ" and for which the locate call returns
    a size between 1 and 15, [main] reads outside the content and never
    returns normally. Before that read it has printed a row, numbered
    from 0, for each 8-byte entry it could still read past the located
    bytes: at most one row per 8 bytes of the file. *)
Theorem main_reads_outside_below_16 (content : buffer) (r0 n : Z) :
  load_u16 content 0 = Some 0x5a4d ->
  size content < 2 ^ 60 ->
  result (rich_header_from_data content) (mkState r0 []) = Value n ->
  0 < n < 16 ->
  exists rows,
    main_after_read content r0 = ReadOutside rows /\
    8 * Z.of_nat (length rows) <= size content /\
    forall (i : nat) (r : row), rows !! i = Some r -> row_i r = Z.of_nat i.
Proof.
  intros Hmz Hsize Hres Hn.
  rewrite (main_after_read_unfold content r0 n Hmz Hres) by lia. cbn zeta.
  destruct (positive_result content (mkState r0 []) n Hres) as [Hlow _]; [lia|].
  destruct (rich_header_unmask content _ n _) as [file|] eqn:Hrun.
  2:{ exists []. split; [reflexivity|]. split; [unfold size; simpl; lia|].
      intros i r Hr. discriminate. }
  pose proof (rich_header_unmask_size _ _ _ _ _ Hrun) as Hfile.
  assert (Hlen : 2 ^ 60 <= rich_header_products_len n).
  { unfold rich_header_products_len, size_t_wrap, sizeof_uint32, sizeof_product.
    change (2 ^ 60) with 1152921504606846976.
    change (2 ^ 64) with 18446744073709551616.
    Z.to_euclidean_division_equations. lia. }
  destruct (print_loop_spec file
              (rhdr (final (rich_header_from_data content) (mkState r0 [])) - n)
              (rich_header_products_len n) (S (length file)) 0 [])
    as (ps & Hall & Hcase).
  destruct (read_all_bound _ _ _ _ Hall Hlow) as [Hb _].
  destruct Hcase as [(_ & Hmax) | [(-> & _) | (_ & Hfuel)]].
  - exfalso. simpl in Hmax. lia.
  - exists (rows_of 0 ps). split; [reflexivity|].
    rewrite length_rows_of. split; [lia|].
    intros i r Hr. unfold rows_of in Hr. rewrite list_lookup_imap in Hr.
    destruct (ps !! i) as [e|]; [|discriminate]. injection Hr as <-. reflexivity.
  - exfalso. unfold size in Hb. lia.
Qed.

Lemma main_reads_outside_below_16_witness :
  exists rows,
    main_after_read mz_short_header_padded 0 = ReadOutside rows /\
    8 * Z.of_nat (length rows) <= size mz_short_header_padded /\
    forall (i : nat) (r : row), rows !! i = Some r -> row_i r = Z.of_nat i.
Proof.
  apply (main_reads_outside_below_16 mz_short_header_padded 0 4).
  - reflexivity.
  - vm_compute. reflexivity.
  - vm_compute. reflexivity.
  - lia.
Defined.

(** With [rich_header_size = 4] and 64 more bytes after the key, [main]
    prints seven rows made of those bytes before a read falls outside. *)
Lemma main_rows_before_the_read_outside :
  result (rich_header_from_data mz_short_header_padded) st0 = Value 4 /\
  exists rows,
    main_after_read mz_short_header_padded 0 = ReadOutside rows /\
    length rows = 7%nat.
Proof.
  split; [vm_compute; reflexivity|].
  eexists. split; [vm_compute; reflexivity | reflexivity].
Qed.

(** Without the extra bytes the first read is already outside. *)
Lemma main_no_row_before_the_read_outside :
  main_after_read mz_short_header 0 = ReadOutside [].
Proof. vm_compute. reflexivity. Qed.

(** X18: whenever [main] runs to its end and returns [EXIT_SUCCESS], the
    file starts with "MZ", the locate call returned a size [n] of at least
    16, and exactly [(n - 16) / 8] rows were printed, numbered from 0.
    (Rows can also be printed by a run that does not reach its end: one
    that reads outside the content after a size below 16.) *)
Theorem main_printed (content : buffer) (r0 : Z) (rows : list row) :
  size content < 2 ^ 60 ->
  main_after_read content r0 = Printed rows ->
  load_u16 content 0 = Some 0x5a4d /\
  exists n,
    result (rich_header_from_data content) (mkState r0 []) = Value n /\
    16 <= n /\
    Z.of_nat (length rows) = (n - 16) / 8 /\
    forall (i : nat) (r : row), rows !! i = Some r -> row_i r = Z.of_nat i.
Proof.
  intros Hsize Hmain.
  destruct (main_after_read_passed content r0) as (Hmz & n & Hres & Hpos);
    [congruence | congruence |].
  split; [assumption|]. exists n. split; [assumption|].
  rewrite (main_after_read_unfold content r0 n Hmz Hres Hpos) in Hmain.
  cbn zeta in Hmain.
  destruct (positive_result content (mkState r0 []) n Hres Hpos) as [Hlow Hhigh].
  destruct (rich_header_unmask content _ n _) as [file|] eqn:Hrun; [|discriminate].
  pose proof (rich_header_unmask_size _ _ _ _ _ Hrun) as Hfile.
  destruct (print_loop_spec file
              (rhdr (final (rich_header_from_data content) (mkState r0 [])) - n)
              (rich_header_products_len n) (S (length file)) 0 [])
    as (ps & Hall & [(Heq & Hmax) | [(Heq & _) | (Heq & _)]]);
    rewrite Heq in Hmain; try discriminate.
  injection Hmain as <-. simpl in Hmax.
  destruct (read_all_bound _ _ _ _ Hall Hlow) as [Hb _].
  assert (H16 : 16 <= n).
  { destruct (Z_lt_le_dec n 16) as [Hlt|]; [|assumption]. exfalso.
    assert (Hlen : 2 ^ 60 <= rich_header_products_len n).
    { unfold rich_header_products_len, size_t_wrap, sizeof_uint32, sizeof_product.
      change (2 ^ 60) with 1152921504606846976.
      change (2 ^ 64) with 18446744073709551616.
      Z.to_euclidean_division_equations. lia. }
    lia. }
  split; [assumption|]. split.
  - rewrite rich_header_products_len_eq in Hmax
      by (change (2 ^ 60) with 1152921504606846976 in Hsize;
          change (2 ^ 64) with 18446744073709551616; lia).
    assert (0 <= (n - 16) / 8) by (apply Z.div_pos; lia).
    rewrite length_rows_of. lia.
  - intros i r Hr. simpl in Hr. unfold rows_of in Hr. rewrite list_lookup_imap in Hr.
    destruct (ps !! i) as [e|]; [|discriminate]. injection Hr as <-. reflexivity.
Qed.

Lemma main_printed_witness :
  load_u16 (assemble mz_pad key1 [utc1600_c]) 0 = Some 0x5a4d /\
  exists n,
    result (rich_header_from_data (assemble mz_pad key1 [utc1600_c])) (mkState 0 [])
    = Value n /\
    16 <= n /\
    Z.of_nat (length (imap print_row [utc1600_c])) = (n - 16) / 8 /\
    forall (i : nat) (r : row),
      imap print_row [utc1600_c] !! i = Some r -> row_i r = Z.of_nat i.
Proof.
  apply (main_printed (assemble mz_pad key1 [utc1600_c]) 0).
  - vm_compute. reflexivity.
  - vm_compute. reflexivity.
Defined.
